(** * telepresence-compose: a shallow embedding of [telepresence-compose.py]

    The script reads one service of a docker-compose manifest and prints the
    [telepresence] command line that runs it.  This development embeds the
    functions of the script ([port_to_str], [volume_dict_pairs_to_str],
    [volume_to_str_lambda], [env_file_to_str_lambda], [convert_to_seconds],
    [main]) together with the parts of the Python runtime they rely on
    (truthiness, [str]/[repr], [str.split]/[str.join], one-shot iterators,
    [os.path.dirname], [os.path.normpath] and [pathlib.PosixPath]).

    Conventions.
    - A Python [str] is a Rocq [string]; one [ascii] stands for one code
      point below 256.
    - A value loaded from YAML is a [pyval]; a [dict] is an association list
      in insertion order (the order [items()] and [keys()] traverse).
    - A computation that can raise or leave through [sys.exit] returns a
      [result].
    - The runtime is CPython 3.11 on POSIX with its default settings.
      [int] is unbounded; [int(str)] refuses a text of more than 4300 digits
      with [ValueError].  An [int] of the manifest is taken to have at most
      4300 decimal digits, so that [str] and [repr] render it.
    - What [pathlib] and [os.path] need from the process (the working
      directory, [HOME], the password database) is an [os_env]. *)

From Stdlib Require Import List String Ascii ZArith Lia Bool Arith DecimalString.
Import ListNotations.
Local Open Scope list_scope.
Local Open Scope string_scope.

(** ** Outcomes of a Python computation *)

Inductive exn : Type :=
| TypeError
| KeyError
| AttributeError
| NameError
| OverflowError
| RuntimeError
| ValueError.

Inductive result (A : Type) : Type :=
| Ok (a : A)
| Raise (e : exn)
| SysExit (msg : string).

Arguments Ok {A} a.
Arguments Raise {A} e.
Arguments SysExit {A} msg.

Definition bind {A B : Type} (r : result A) (k : A -> result B) : result B :=
  match r with
  | Ok a => k a
  | Raise e => Raise e
  | SysExit m => SysExit m
  end.

Notation "x <- e ;; k" := (bind e (fun x => k))
  (at level 61, e at next level, right associativity).

Fixpoint map_result {A B : Type} (f : A -> result B) (l : list A) : result (list B) :=
  match l with
  | [] => Ok []
  | x :: t => y <- f x ;; ys <- map_result f t ;; Ok (y :: ys)
  end.

Definition is_ok {A : Type} (r : result A) : bool :=
  match r with Ok _ => true | _ => false end.

(** When the first computation gives a result, so does the second. *)
Definition ok_carries {A B : Type} (r : result A) (r' : result B) : Prop :=
  is_ok r = true -> is_ok r' = true.

(** ** Strings: [startswith], [split], [join] *)

Definition sep : ascii := "/"%char.
Definition dquote : ascii := "034"%char.
Definition squote : ascii := "'"%char.
Definition backslash : ascii := "\"%char.

(** [s.startswith(p)] *)
Fixpoint startswith (s p : string) {struct p} : bool :=
  match p with
  | EmptyString => true
  | String b p' =>
      match s with
      | EmptyString => false
      | String a s' => Ascii.eqb a b && startswith s' p'
      end
  end.

(** [s.split(c)] for a one-character separator: every occurrence cuts, empty
    pieces are kept, and the result is never empty. *)
Fixpoint split_on (c : ascii) (s : string) : list string :=
  match s with
  | EmptyString => [EmptyString]
  | String a r =>
      if Ascii.eqb a c then EmptyString :: split_on c r
      else match split_on c r with
           | [] => [String a EmptyString]
           | h :: t => String a h :: t
           end
  end.

(** [d.join(l)] on a list of strings. *)
Fixpoint join (d : string) (l : list string) : string :=
  match l with
  | [] => EmptyString
  | [x] => x
  | x :: t => x ++ d ++ join d t
  end.

Fixpoint contains_char (c : ascii) (s : string) : bool :=
  match s with
  | EmptyString => false
  | String a r => Ascii.eqb a c || contains_char c r
  end.

(** [needle in hay] on strings. *)
Fixpoint is_substring (needle hay : string) : bool :=
  startswith hay needle ||
  match hay with
  | EmptyString => false
  | String _ r => is_substring needle r
  end.

(** ** Values loaded from the manifest *)

#[warnings="-register-all"]
Inductive pyval : Type :=
| PNone
| PBool (b : bool)
| PInt (z : Z)
| PFloat (nonzero : bool) (text : string)
| PStr (s : string)
| PList (l : list pyval)
| PDict (d : list (pyval * pyval)).

(** A float is kept abstract: whether it is non-zero and the text [repr]
    gives for it. *)

Definition truthy (v : pyval) : bool :=
  match v with
  | PNone => false
  | PBool b => b
  | PInt z => negb (Z.eqb z 0)
  | PFloat nz _ => nz
  | PStr s => negb (String.eqb s EmptyString)
  | PList l => match l with [] => false | _ => true end
  | PDict d => match d with [] => false | _ => true end
  end.

(** [v or d] *)
Definition py_or (v d : pyval) : pyval := if truthy v then v else d.

Definition is_str (v : pyval) : bool := match v with PStr _ => true | _ => false end.
Definition is_dict (v : pyval) : bool := match v with PDict _ => true | _ => false end.

(** *** [repr] and [str] *)

Definition hex_digit (n : nat) : ascii :=
  nth n ["0"; "1"; "2"; "3"; "4"; "5"; "6"; "7"; "8"; "9";
         "a"; "b"; "c"; "d"; "e"; "f"]%char "0"%char.

Definition hex_escape (n : nat) : string :=
  String backslash (String "x" (String (hex_digit (n / 16)) (String (hex_digit (n mod 16)) EmptyString))).

(** The characters below 256 that [str.isprintable] rejects. *)
Definition unprintable (n : nat) : bool :=
  ((n <? 32) || (n =? 127) || ((128 <=? n) && (n <=? 160)) || (n =? 173))%nat.

Definition repr_char (quote : ascii) (c : ascii) : string :=
  let n := nat_of_ascii c in
  if Ascii.eqb c quote || Ascii.eqb c backslash then String backslash (String c EmptyString)
  else if (n =? 9)%nat then String backslash "t"
  else if (n =? 10)%nat then String backslash "n"
  else if (n =? 13)%nat then String backslash "r"
  else if unprintable n then hex_escape n
  else String c EmptyString.

Definition repr_quote (s : string) : ascii :=
  if contains_char squote s && negb (contains_char dquote s) then dquote else squote.

Definition str_repr (s : string) : string :=
  let q := repr_quote s in
  String q (concat EmptyString (map (repr_char q) (list_ascii_of_string s)) ++ String q EmptyString).

Definition int_str (z : Z) : string := NilZero.string_of_int (Z.to_int z).

Fixpoint py_repr (v : pyval) : string :=
  match v with
  | PNone => "None"
  | PBool true => "True"
  | PBool false => "False"
  | PInt z => int_str z
  | PFloat _ t => t
  | PStr s => str_repr s
  | PList l => "[" ++ join ", " (map py_repr l) ++ "]"
  | PDict d => "{" ++ join ", " (map (fun '(k, x) => py_repr k ++ ": " ++ py_repr x) d) ++ "}"
  end.

(** [str(v)] *)
Definition py_str (v : pyval) : string :=
  match v with
  | PStr s => s
  | _ => py_repr v
  end.

(** ** Dictionaries, iteration, [len], [join], [+] *)

Definition key_is (k : string) (v : pyval) : bool :=
  match v with PStr s => String.eqb s k | _ => false end.

(** Lookup of a [str] key: only a [str] key compares equal to it. *)
Fixpoint dict_find (d : list (pyval * pyval)) (k : string) : option pyval :=
  match d with
  | [] => None
  | (k', v) :: t => if key_is k k' then Some v else dict_find t k
  end.

(** [d.get(k)] *)
Definition dict_get (d : list (pyval * pyval)) (k : string) : pyval :=
  match dict_find d k with Some v => v | None => PNone end.

(** [d[k]] *)
Definition dict_getitem (d : list (pyval * pyval)) (k : string) : result pyval :=
  match dict_find d k with Some v => Ok v | None => Raise KeyError end.

(** [v[k]] for a [str] index [k]. *)
Definition py_getitem (v : pyval) (k : string) : result pyval :=
  match v with
  | PDict d => dict_getitem d k
  | _ => Raise TypeError
  end.

Definition chars (s : string) : list pyval :=
  map (fun c => PStr (String c EmptyString)) (list_ascii_of_string s).

(** The items [for x in v] visits. *)
Definition py_iter (v : pyval) : result (list pyval) :=
  match v with
  | PList l => Ok l
  | PStr s => Ok (chars s)
  | PDict d => Ok (map fst d)
  | _ => Raise TypeError
  end.

Definition py_len (v : pyval) : result nat :=
  match v with
  | PList l => Ok (List.length l)
  | PStr s => Ok (String.length s)
  | PDict d => Ok (List.length d)
  | _ => Raise TypeError
  end.

(** [k in v] for a [str] [k]. *)
Definition py_contains (v : pyval) (k : string) : result bool :=
  match v with
  | PDict d => Ok (existsb (key_is k) (map fst d))
  | PList l => Ok (existsb (key_is k) l)
  | PStr s => Ok (is_substring k s)
  | _ => Raise TypeError
  end.

Definition as_str (v : pyval) : result string :=
  match v with PStr s => Ok s | _ => Raise TypeError end.

(** [d.join(l)]: every item must be a [str]. *)
Definition str_join (d : string) (l : list pyval) : result string :=
  ss <- map_result as_str l ;; Ok (join d ss).

(** [s + v] with [s] a [str]. *)
Definition str_add (s : string) (v : pyval) : result string :=
  t <- as_str v ;; Ok (s ++ t).

(** ** [os.path.dirname] and [os.path.normpath] (posixpath) *)

Fixpoint all_sep (s : string) : bool :=
  match s with
  | EmptyString => true
  | String c r => Ascii.eqb c sep && all_sep r
  end.

Fixpoint lstrip_sep (s : string) : string :=
  match s with
  | EmptyString => EmptyString
  | String c r => if Ascii.eqb c sep then lstrip_sep r else s
  end.

Fixpoint rstrip_sep (s : string) : string :=
  match s with
  | EmptyString => EmptyString
  | String c r =>
      let r' := rstrip_sep r in
      if Ascii.eqb c sep && String.eqb r' EmptyString then EmptyString else String c r'
  end.

(** [p[:p.rfind('/') + 1]]: [p] up to and including its last slash. *)
Fixpoint rfind_head (p : string) : string :=
  match p with
  | EmptyString => EmptyString
  | String c r =>
      let h := rfind_head r in
      if Ascii.eqb c sep || negb (String.eqb h EmptyString) then String c h else EmptyString
  end.

Definition dirname (p : string) : string :=
  let head := rfind_head p in
  if negb (String.eqb head EmptyString) && negb (all_sep head) then rstrip_sep head else head.

(** POSIX keeps exactly two leading slashes apart; three or more are one. *)
Definition initial_slashes (path : string) : nat :=
  if startswith path "/" then
    if startswith path "//" && negb (startswith path "///") then 2 else 1
  else 0.

(** One turn of the loop of [normpath].  [new_comps] is kept as a stack, its
    last item first. *)
Definition norm_step (rooted : bool) (new_comps : list string) (comp : string) : list string :=
  if String.eqb comp EmptyString || String.eqb comp "." then new_comps
  else if negb (String.eqb comp "..")
          || (negb rooted && match new_comps with [] => true | _ => false end)
          || match new_comps with top :: _ => String.eqb top ".." | [] => false end
       then comp :: new_comps
       else match new_comps with
            | [] => []
            | _ :: below => below
            end.

Definition norm_comps (rooted : bool) (comps : list string) : list string :=
  rev (fold_left (norm_step rooted) comps []).

Definition slashes (n : nat) : string := concat EmptyString (repeat "/" n).

Definition normpath (path : string) : string :=
  if String.eqb path EmptyString then "."
  else
    let n := initial_slashes path in
    let comps := split_on sep path in
    let new_comps := norm_comps (0 <? n)%nat comps in
    let path := slashes n ++ join "/" new_comps in
    if String.eqb path EmptyString then "." else path.

(** ** [pathlib.PosixPath] *)

(** A parsed path: its root (empty, one slash or two) and the parts below it. *)
Record PosixPath : Type := mkPath { root : string; parts : list string }.

Definition splitroot (part : string) : string * string :=
  if startswith part "/" then
    let stripped := lstrip_sep part in
    if (String.length part - String.length stripped =? 2)%nat
    then ("//", stripped) else ("/", stripped)
  else (EmptyString, part).

Definition keep_part (x : string) : bool :=
  negb (String.eqb x EmptyString) && negb (String.eqb x ".").

(** One argument of the constructor: an anchored argument drops what came
    before it, a relative one is appended. *)
Definition parse_part (acc : PosixPath) (part : string) : PosixPath :=
  if String.eqb part EmptyString then acc
  else
    let '(r, rel) := splitroot part in
    let comps := filter keep_part (split_on sep rel) in
    if String.eqb r EmptyString
    then mkPath (root acc) (parts acc ++ comps)%list
    else mkPath r comps.

(** [PosixPath(a, b, ...)] *)
Definition parse_parts (args : list string) : PosixPath :=
  fold_left parse_part args (mkPath EmptyString []).

(** [str(path)] *)
Definition path_str (p : PosixPath) : string :=
  let s := root p ++ join "/" (parts p) in
  if String.eqb s EmptyString then "." else s.

(** What the process sees of its surroundings: [os.getcwd()],
    [os.environ.get('HOME')], the home directory of the current user in the
    password database ([pwd.getpwuid(os.getuid()).pw_dir]; [None] when the
    lookup raises [KeyError]) and the home directory of a named user
    ([pwd.getpwnam(name).pw_dir]; [None] for [KeyError]). *)
Record os_env : Type := mkEnv {
  getcwd : string;
  environ_HOME : option string;
  getpwuid_dir : option string;
  getpwnam_dir : string -> option string
}.

Definition str_tail (s : string) : string :=
  match s with EmptyString => EmptyString | String _ r => r end.

Definition nul : ascii := "000"%char.

(** [s[:i]] and [s[i:]] for [i] the place of the first slash of [s], the
    length of [s] when it has none. *)
Fixpoint cut_at_sep (s : string) : string * string :=
  match s with
  | EmptyString => (EmptyString, EmptyString)
  | String c r =>
      if Ascii.eqb c sep then (EmptyString, s)
      else let '(a, b) := cut_at_sep r in (String c a, b)
  end.

(** [os.path.expanduser(path)].  A path that does not start with a tilde, or
    whose user has no entry, is returned as it is; [pwd.getpwnam] raises
    [ValueError] for a name that holds a null character. *)
Definition os_path_expanduser (env : os_env) (path : string) : result string :=
  if negb (startswith path "~") then Ok path
  else
    let '(name, rest) := cut_at_sep (str_tail path) in
    userhome <-
      (if String.eqb name EmptyString then
         Ok (match environ_HOME env with
             | Some home => Some home
             | None => getpwuid_dir env
             end)
       else if contains_char nul name then Raise ValueError
       else Ok (getpwnam_dir env name)) ;;
    match userhome with
    | None => Ok path
    | Some userhome =>
        let expanded := rstrip_sep userhome ++ rest in
        Ok (if String.eqb expanded EmptyString then "/" else expanded)
    end.

(** [path.expanduser()] *)
Definition expanduser (env : os_env) (p : PosixPath) : result PosixPath :=
  if String.eqb (root p) EmptyString then
    match parts p with
    | first :: rest =>
        if startswith first "~" then
          homedir <- os_path_expanduser env first ;;
          if startswith homedir "~" then Raise RuntimeError
          else Ok (parse_parts (homedir :: rest))
        else Ok p
    | [] => Ok p
    end
  else Ok p.

(** [path.absolute()] *)
Definition absolute (env : os_env) (p : PosixPath) : PosixPath :=
  if negb (String.eqb (root p) EmptyString) then p
  else parse_parts (getcwd env :: parts p).

(** ** [convert_to_seconds] *)

Inductive unit_name : Type := seconds | minutes | hours | days | weeks.

Definition unit_name_eqb (a b : unit_name) : bool :=
  match a, b with
  | seconds, seconds | minutes, minutes | hours, hours | days, days | weeks, weeks => true
  | _, _ => false
  end.

Definition is_digit (c : ascii) : bool :=
  let n := nat_of_ascii c in ((48 <=? n) && (n <=? 57))%nat.

(** [c.lower()] on one character. *)
Definition lower (c : ascii) : ascii :=
  let n := nat_of_ascii c in
  if ((65 <=? n) && (n <=? 90))%nat then ascii_of_nat (n + 32) else c.

(** The class [[smhdw]] under [re.I]. *)
Definition is_unit_char (c : ascii) : bool :=
  existsb (Ascii.eqb (lower c)) ["s"; "m"; "h"; "d"; "w"]%char.

(** [UNITS.get(unit.lower(), 'seconds')] for a [unit] group of at most one
    character. *)
Definition UNITS_get (unit : string) : unit_name :=
  match unit with
  | String c EmptyString =>
      let l := lower c in
      if Ascii.eqb l "s" then seconds
      else if Ascii.eqb l "m" then minutes
      else if Ascii.eqb l "h" then hours
      else if Ascii.eqb l "d" then days
      else if Ascii.eqb l "w" then weeks
      else seconds
  | _ => seconds
  end.

(** The matches of [(?P<val>\d+)(?P<unit>[smhdw]?)], left to right, as pairs
    of the two groups; [digits] is the run of digits read so far. *)
Fixpoint finditer_from (s : string) (digits : string) : list (string * string) :=
  match s with
  | EmptyString => if String.eqb digits EmptyString then [] else [(digits, EmptyString)]
  | String c r =>
      if is_digit c then finditer_from r (digits ++ String c EmptyString)
      else if String.eqb digits EmptyString then finditer_from r EmptyString
      else if is_unit_char c then (digits, String c EmptyString) :: finditer_from r EmptyString
      else (digits, EmptyString) :: finditer_from r EmptyString
  end.

Definition finditer (s : string) : list (string * string) := finditer_from s EmptyString.

(** The number that a run of decimal digits denotes. *)
Definition int_of_digits (val : string) : Z :=
  fold_left (fun acc c => acc * 10 + Z.of_nat (nat_of_ascii c - 48))%Z
            (list_ascii_of_string val) 0%Z.

(** [sys.int_info.default_max_str_digits] *)
Definition max_str_digits : Z := 4300.

(** A run of more digits than [int] converts; leading zeros count. *)
Definition over_limit (val : string) : bool :=
  (max_str_digits <? Z.of_nat (String.length val))%Z.

(** [int(val)] on a run of decimal digits. *)
Definition py_int (val : string) : result Z :=
  if over_limit val then Raise ValueError else Ok (int_of_digits val).

(** A keyword dictionary: assigning to a key that is present overwrites its
    value in place. *)
Fixpoint kw_set (d : list (unit_name * Z)) (k : unit_name) (v : Z) : list (unit_name * Z) :=
  match d with
  | [] => [(k, v)]
  | (k', v') :: t => if unit_name_eqb k' k then (k', v) :: t else (k', v') :: kw_set t k v
  end.

(** The dictionary comprehension of [convert_to_seconds], match by match:
    the key, then the value, then the assignment. *)
Fixpoint kwargs_from (ms : list (string * string)) (d : list (unit_name * Z))
  : result (list (unit_name * Z)) :=
  match ms with
  | [] => Ok d
  | m :: rest =>
      let key := UNITS_get (snd m) in
      value <- py_int (fst m) ;;
      kwargs_from rest (kw_set d key value)
  end.

Definition duration_kwargs (s : string) : result (list (unit_name * Z)) :=
  kwargs_from (finditer s) [].

Definition unit_seconds (u : unit_name) : Z :=
  match u with
  | seconds => 1
  | minutes => 60
  | hours => 3600
  | days => 86400
  | weeks => 604800
  end%Z.

(** The keyword arguments added up, in seconds. *)
Definition kw_total (kwargs : list (unit_name * Z)) : Z :=
  fold_right (fun '(u, n) acc => n * unit_seconds u + acc)%Z 0%Z kwargs.

(** [total_seconds()] of the [timedelta] built from the keyword dictionary,
    for integer arguments: the sum of the arguments in seconds, which
    [int()] then returns as it is (the float is exact below 2^53);
    [OverflowError] when the sum is more than 999999999 days away from
    zero. *)
Definition timedelta_total_seconds (kwargs : list (unit_name * Z)) : result Z :=
  let total := kw_total kwargs in
  let d := (total / 86400)%Z in
  if ((-999999999 <=? d) && (d <=? 999999999))%Z then Ok total else Raise OverflowError.

Definition convert_to_seconds (s : string) : result Z :=
  kwargs <- duration_kwargs s ;;
  timedelta_total_seconds kwargs.

(** Some run of digits of [s] is longer than [int] converts. *)
Definition digits_over_limit (s : string) : bool :=
  existsb (fun m => over_limit (fst m)) (finditer s).

(** What the duration parser is specified to return: every segment counts. *)
Definition segment_seconds (m : string * string) : Z :=
  (int_of_digits (fst m) * unit_seconds (UNITS_get (snd m)))%Z.

Definition sum_of_segments (s : string) : Z :=
  fold_right (fun m acc => segment_seconds m + acc)%Z 0%Z (finditer s).

(** ** The script *)

(** The parsed command line: [-s], [-c], [-S] and the path of the manifest. *)
Record arguments : Type := mkArgs {
  service : string;
  context : string;
  swap : bool;
  composefile : string
}.

(** [v.startswith(p)]: only a [str] has the method. *)
Definition py_startswith (v : pyval) (p : string) : result bool :=
  match v with
  | PStr s => Ok (startswith s p)
  | _ => Raise AttributeError
  end.

(** One-shot iterators ([itertools.chain] objects): the items still to come. *)
Definition iterator : Type := list pyval.

Definition chain_from_iterable (pairs : list (pyval * pyval)) : iterator :=
  flat_map (fun '(a, b) => [a; b]) pairs.

(** [itertools.chain.from_iterable(zip(itertools.repeat(flag, len(v)), v))] *)
Definition flag_pairs (flag : string) (v : pyval) : result iterator :=
  n <- py_len v ;;
  items <- py_iter v ;;
  Ok (chain_from_iterable (combine (repeat (PStr flag) n) items)).

(** [cmd.extend(it)] for a one-shot iterator: what is left of [it] goes to the
    end of [cmd], and [it] is left exhausted. *)
Definition extend_iter (cmd : list pyval) (it : iterator) : list pyval * iterator :=
  ((cmd ++ it)%list, []).

Definition newline : string := String "010"%char EmptyString.

Definition port_to_str (port : pyval) : result pyval :=
  match port with
  | PStr _ => Ok port
  | PDict d =>
      published <- dict_getitem d "published" ;;
      target <- dict_getitem d "target" ;;
      protocol <- dict_getitem d "protocol" ;;
      s <- str_add (py_str published ++ ":" ++ py_str target ++ "/") protocol ;;
      Ok (PStr s)
  | _ => Raise NameError
  end.

Section Script.

Variable args : arguments.
Variable env : os_env.

Definition volume_dict_pairs_to_str (keyval_arr : pyval * pyval) : result string :=
  let key := fst keyval_arr in
  let val := snd keyval_arr in
  if key_is "read_only" key then Ok ("readonly=" ++ py_str val)
  else if key_is "source" key then
    tilde <- py_startswith val "~" ;;
    if tilde then
      path <- expanduser env (parse_parts [py_str val]) ;;
      Ok ("source=" ++ normpath (path_str (absolute env path)))
    else
      anchored <- py_startswith val "/" ;;
      if Bool.eqb anchored false then
        let dirname := dirname (composefile args) in
        let path := parse_parts [dirname; py_str val] in
        Ok ("source=" ++ normpath (path_str (absolute env path)))
      else Ok ("source=" ++ py_str val)
  else
    k <- as_str key ;;
    Ok (k ++ "=" ++ py_str val).

Definition volume_to_str_lambda (volume : pyval) : result pyval :=
  match volume with
  | PStr s => Ok (PStr ("-v " ++ s))
  | PDict d =>
      pairs <- map_result volume_dict_pairs_to_str d ;;
      Ok (PStr ("--mount " ++ join "," pairs))
  | _ => Raise NameError
  end.

Definition env_file_to_str_lambda (env_file : pyval) : result pyval :=
  tilde <- py_startswith env_file "~" ;;
  if tilde then
    path <- expanduser env (parse_parts [py_str env_file]) ;;
    Ok (PStr ("--env-file " ++ normpath (path_str (absolute env path))))
  else
    anchored <- py_startswith env_file "/" ;;
    if Bool.eqb anchored false then
      let dirname := dirname (composefile args) in
      let path := parse_parts [dirname; py_str env_file] in
      Ok (PStr ("--env-file " ++ normpath (path_str (absolute env path))))
    else
      s <- str_add "--env-file " env_file ;;
      Ok (PStr s).

(** Lines 125 to 212 of [main]: from the service entry to the list [cmd]. *)
Definition main_cmd (spec : pyval) : result (list pyval) :=
  match spec with
  | PDict svc =>
      let svc_entrypoint_raw := dict_get svc "entrypoint" in
      svc_entrypoint <-
        match svc_entrypoint_raw with
        | PList l => s <- str_join " " l ;; Ok (PStr s)
        | _ => Ok svc_entrypoint_raw
        end ;;
      svc_entrypoint_split <-
        (if truthy svc_entrypoint then
           match svc_entrypoint with
           | PStr s => Ok (map PStr (split_on " " s))
           | _ => Raise AttributeError
           end
         else Ok []) ;;
      let svc_command := dict_get svc "command" in
      let svc_image := dict_get svc "image" in
      let svc_name := dict_get svc "container_name" in
      let svc_pid := dict_get svc "pid" in
      let svc_stop_grace_period := dict_get svc "stop_grace_period" in
      let svc_stop_signal := dict_get svc "stop_signal" in
      let svc_working_dir := dict_get svc "working_dir" in
      let svc_cap_add := py_or (dict_get svc "cap_add") (PList []) in
      let svc_cap_drop := py_or (dict_get svc "cap_drop") (PList []) in
      let svc_devices := py_or (dict_get svc "devices") (PList []) in
      let svc_dns := py_or (dict_get svc "dns") (PList []) in
      let svc_dns_search := py_or (dict_get svc "dns_search") (PList []) in
      let svc_env_file := py_or (dict_get svc "env_file") (PList []) in
      let svc_environment := py_or (dict_get svc "environment") (PList []) in
      let svc_expose := py_or (dict_get svc "expose") (PList []) in
      let svc_extra_hosts := py_or (dict_get svc "extra_hosts") (PList []) in
      let svc_labels := py_or (dict_get svc "labels") (PList []) in
      let svc_ports_raw := py_or (dict_get svc "ports") (PList []) in
      svc_ports <- (items <- py_iter svc_ports_raw ;; map_result port_to_str items) ;;
      let svc_volumes_raw := py_or (dict_get svc "volumes") (PList []) in
      cap_add_list <- flag_pairs "--cap-add" svc_cap_add ;;
      cap_drop_list <- flag_pairs "--cap-drop" svc_cap_drop ;;
      devices_list <- flag_pairs "--devices" svc_devices ;;
      dns_list <- flag_pairs "--dns" svc_dns ;;
      dns_search_list <- flag_pairs "--dns-search" svc_dns_search ;;
      environment_list <- flag_pairs "-e" svc_environment ;;
      expose_list <- flag_pairs "--expose" svc_expose ;;
      extra_host_list <- flag_pairs "--add-host" svc_extra_hosts ;;
      label_list <- flag_pairs "-l" svc_labels ;;
      port_list <- flag_pairs "-p" (PList svc_ports) ;;
      env_file_list <- (items <- py_iter svc_env_file ;; map_result env_file_to_str_lambda items) ;;
      volume_list <- (items <- py_iter svc_volumes_raw ;; map_result volume_to_str_lambda items) ;;
      let cmd := [PStr "telepresence"] in
      let cmd := (cmd ++ [PStr "--method"; PStr "container"])%list in
      let cmd := (cmd ++ [PStr "--context"; PStr (context args)])%list in
      let cmd :=
        if swap args
        then (cmd ++ [PStr "--swap-deployment"; PStr (service args)])%list
        else (cmd ++ [PStr "--new-deployment"; PStr ("tele-" ++ service args)])%list in
      let '(cmd, expose_list) := extend_iter cmd expose_list in
      let cmd := (cmd ++ [PStr "--mount"; PStr "false"])%list in
      let cmd := (cmd ++ [PStr "--env-file"; PStr "telepresence-env-file.env.tmp"])%list in
      let cmd := (cmd ++ [PStr "--docker-run"; PStr "--rm"; PStr "-it"])%list in
      let cmd := if truthy svc_name then (cmd ++ [PStr "--name"; svc_name])%list else cmd in
      let cmd :=
        match svc_entrypoint_split with
        | first :: _ => (cmd ++ [PStr "--entrypoint"; first])%list
        | [] => cmd
        end in
      let cmd := if truthy svc_pid then (cmd ++ [PStr "--pid"; svc_pid])%list else cmd in
      cmd <-
        (if truthy svc_stop_grace_period then
           s <- as_str svc_stop_grace_period ;;
           secs <- convert_to_seconds s ;;
           Ok (cmd ++ [PStr "--stop-timeout"; PStr (int_str secs)])%list
         else Ok cmd) ;;
      let cmd := if truthy svc_stop_signal then (cmd ++ [PStr "--stop-signal"; svc_stop_signal])%list else cmd in
      let cmd := if truthy svc_working_dir then (cmd ++ [PStr "--workdir"; svc_working_dir])%list else cmd in
      let '(cmd, cap_add_list) := extend_iter cmd cap_add_list in
      let '(cmd, cap_drop_list) := extend_iter cmd cap_drop_list in
      let '(cmd, devices_list) := extend_iter cmd devices_list in
      let '(cmd, dns_list) := extend_iter cmd dns_list in
      let '(cmd, dns_search_list) := extend_iter cmd dns_search_list in
      let cmd := (cmd ++ env_file_list)%list in
      let '(cmd, environment_list) := extend_iter cmd environment_list in
      let '(cmd, expose_list) := extend_iter cmd expose_list in
      let '(cmd, extra_host_list) := extend_iter cmd extra_host_list in
      let '(cmd, label_list) := extend_iter cmd label_list in
      let '(cmd, port_list) := extend_iter cmd port_list in
      let cmd := (cmd ++ volume_list)%list in
      let cmd := (cmd ++ [svc_image])%list in
      let cmd :=
        if (1 <? List.length svc_entrypoint_split)%nat
        then (cmd ++ tl svc_entrypoint_split)%list
        else cmd in
      Ok cmd
  | _ => Raise AttributeError
  end.

(** [compose_file['services'].keys()] as [format] renders it. *)
Definition keys_text (services : pyval) : result string :=
  match services with
  | PDict d => Ok ("dict_keys([" ++ join ", " (map py_repr (map fst d)) ++ "])")
  | _ => Raise AttributeError
  end.

(** [main], given the value [yaml.load] returned for the manifest; the
    result is what [print] writes. *)
Definition main (compose_file : pyval) : result string :=
  if negb (truthy (PStr (context args))) then SysExit "context MUST be passed"
  else
    services <- py_getitem compose_file "services" ;;
    present <- py_contains services (service args) ;;
    if negb present then
      keys <- keys_text services ;;
      SysExit ("Service " ++ service args ++ " not found in " ++ keys)
    else
      spec <- py_getitem services (service args) ;;
      cmd <- main_cmd spec ;;
      finalCmd <- str_join " " cmd ;;
      Ok ("Docker command:" ++ newline ++ finalCmd).

End Script.

(** ** Vocabulary for the shape of the command *)

(** [flag x] for every [x], in order. *)
Definition pairs (flag : string) (items : list pyval) : list pyval :=
  flat_map (fun x => [PStr flag; x]) items.

Definition items_of (v : pyval) : list pyval :=
  match py_iter v with Ok l => l | _ => [] end.

(** The items of a repeated field of the service; none when the field is
    absent or falsy. *)
Definition field (svc : list (pyval * pyval)) (k : string) : list pyval :=
  items_of (py_or (dict_get svc k) (PList [])).

Definition opt_flag (flag : string) (v : pyval) : list pyval :=
  if truthy v then [PStr flag; v] else [].

Definition proxy_head (args : arguments) : list pyval :=
  [PStr "telepresence"; PStr "--method"; PStr "container"; PStr "--context"; PStr (context args)]
  ++ (if swap args
      then [PStr "--swap-deployment"; PStr (service args)]
      else [PStr "--new-deployment"; PStr ("tele-" ++ service args)]).

Definition proxy_fixed : list pyval :=
  [PStr "--mount"; PStr "false"; PStr "--env-file"; PStr "telepresence-env-file.env.tmp";
   PStr "--docker-run"; PStr "--rm"; PStr "-it"].

(** The tokens of the entrypoint: the joined sequence, or the string itself,
    cut at every space; none when it is empty or absent. *)
Definition entrypoint_tokens (joined : string) : list string :=
  if String.eqb joined EmptyString then [] else split_on " " joined.

Definition entry_flag (tokens : list string) : list pyval :=
  match tokens with
  | first :: _ => [PStr "--entrypoint"; PStr first]
  | [] => []
  end.

(** [--stop-timeout] and its value, when the field is set. *)
Definition stop_flag (v : pyval) : result (list pyval) :=
  if truthy v then
    s <- as_str v ;;
    secs <- convert_to_seconds s ;;
    Ok [PStr "--stop-timeout"; PStr (int_str secs)]
  else Ok [].

(** The entry of the manifest for a service, when the manifest is a mapping
    whose [services] key holds a mapping that has it. *)
Definition service_entry (compose_file : pyval) (name : string) : option pyval :=
  match compose_file with
  | PDict top =>
      match dict_find top "services" with
      | Some (PDict services) => dict_find services name
      | _ => None
      end
  | _ => None
  end.


(** ** Predicates of the statements *)

(** A part that [normpath] keeps and that is not [..]. *)
Definition plain (x : string) : bool := keep_part x && negb (String.eqb x "..").

(** The shape of the stack of [normpath] at every turn: plain names above a
    run of [..] that is empty for an anchored path. *)
Definition stack_ok (rooted : bool) (s : list string) : Prop :=
  exists body k,
    s = (body ++ repeat ".." k)%list
    /\ Forall (fun x => plain x = true) body
    /\ (rooted = true -> k = 0).

(** What parsing guarantees of a path: its root is empty, one slash or two,
    and no part holds a slash. *)
Definition wf_path (p : PosixPath) : Prop :=
  (root p = EmptyString \/ root p = "/" \/ root p = "//")
  /\ Forall (fun x => contains_char sep x = false) (parts p).

(** The keys of a service entry that [main] reads and uses. *)
Definition used_keys : list string :=
  ["entrypoint"; "image"; "container_name"; "pid"; "stop_grace_period"; "stop_signal";
   "working_dir"; "cap_add"; "cap_drop"; "devices"; "dns"; "dns_search"; "env_file";
   "environment"; "expose"; "extra_hosts"; "labels"; "ports"; "volumes"].

(** The same entry with the [ports] taken away: [svc'] has no ports, or
    falsy ones, and agrees with [svc] on the other fields that [main] uses. *)
Definition without_ports (svc svc' : list (pyval * pyval)) : Prop :=
  truthy (dict_get svc' "ports") = false
  /\ forall k, In k used_keys -> k <> "ports" -> dict_get svc' k = dict_get svc k.

(** The [ports] entries, rendered by [port_to_str], are in the tokens as
    [-p] pairs, after the labels and before the volumes, and nothing else in
    the tokens comes from them: the tokens around the [-p] pairs are the
    command of the same entry without its ports.  The [--expose] pairs after
    the deployment flag are the entries of the [expose] field. *)
Definition ports_published (args : arguments) (env : os_env)
           (svc : list (pyval * pyval)) (toks : list pyval) : Prop :=
  exists (svc_ports before after : list pyval),
    map_result port_to_str (field svc "ports") = Ok svc_ports
    /\ toks = (before ++ pairs "-p" svc_ports ++ after)%list
    /\ (exists mid,
          before = (proxy_head args ++ pairs "--expose" (field svc "expose") ++ proxy_fixed
                    ++ mid ++ pairs "-l" (field svc "labels"))%list)
    /\ (exists volume_list rest,
          map_result (volume_to_str_lambda args env) (field svc "volumes") = Ok volume_list
          /\ after = (volume_list ++ dict_get svc "image" :: rest)%list)
    /\ (forall svc', without_ports svc svc' ->
          main_cmd args env (PDict svc') = Ok (before ++ after)%list).



(** ** Sample inputs *)

Definition sample_env : os_env :=
  mkEnv "/work" (Some "/home/dev") (Some "/home/dev") (fun _ => None).

Definition sample_args : arguments := mkArgs "web" "staging" false "/proj/docker-compose.yml".

Definition manifest_of (web : list (pyval * pyval)) : pyval :=
  PDict [(PStr "version", PStr "3");
         (PStr "services", PDict [(PStr "web", PDict web); (PStr "db", PDict [(PStr "image", PStr "postgres")])])].

Definition svc_with_port : list (pyval * pyval) :=
  [(PStr "image", PStr "nginx"); (PStr "ports", PList [PStr "8080:80"])].

Definition cmd_with_port : list pyval :=
  map PStr ["telepresence"; "--method"; "container"; "--context"; "staging";
            "--new-deployment"; "tele-web"; "--mount"; "false"; "--env-file";
            "telepresence-env-file.env.tmp"; "--docker-run"; "--rm"; "-it";
            "-p"; "8080:80"; "nginx"].

Definition svc_with_expose : list (pyval * pyval) :=
  [(PStr "image", PStr "nginx");
   (PStr "environment", PList [PStr "A=1"]);
   (PStr "expose", PList [PStr "3000"]);
   (PStr "extra_hosts", PList [PStr "db:10.0.0.2"])].

Definition svc_with_entrypoint : list (pyval * pyval) :=
  [(PStr "image", PStr "nginx");
   (PStr "entrypoint", PList [PStr "/bin/sh"; PStr "-c"; PStr "run.sh"]);
   (PStr "working_dir", PStr "/app")].

Definition cmd_with_entrypoint : list pyval :=
  map PStr ["telepresence"; "--method"; "container"; "--context"; "staging";
            "--new-deployment"; "tele-web"; "--mount"; "false"; "--env-file";
            "telepresence-env-file.env.tmp"; "--docker-run"; "--rm"; "-it";
            "--entrypoint"; "/bin/sh"; "--workdir"; "/app"; "nginx"; "-c"; "run.sh"].


Definition svc_with_bad_port : list (pyval * pyval) :=
  [(PStr "image", PStr "nginx"); (PStr "ports", PList [PStr "8080:80"; PInt 9000])].



Definition svc_plain : list (pyval * pyval) :=
  [(PStr "image", PStr "nginx"); (PStr "pid", PStr "host")].

Definition svc_with_command : list (pyval * pyval) :=
  [(PStr "image", PStr "nginx"); (PStr "command", PList [PStr "nginx"; PStr "-g"]);
   (PStr "pid", PStr "host")].

(** ** Vocabulary for the further properties *)

(** The value of the last match whose unit is [u]; zero when there is none. *)
Definition last_value (u : unit_name) (ms : list (string * string)) : Z :=
  fold_left (fun acc m => if unit_name_eqb (UNITS_get (snd m)) u
                          then int_of_digits (fst m) else acc) ms 0%Z.

(** The seconds of the last segment of each unit, added up. *)
Definition last_wins_total (s : string) : Z :=
  let ms := finditer s in
  (last_value seconds ms * 1 + last_value minutes ms * 60 + last_value hours ms * 3600
   + last_value days ms * 86400 + last_value weeks ms * 604800)%Z.

(** [s.lower()] *)
Fixpoint lower_string (s : string) : string :=
  match s with
  | EmptyString => EmptyString
  | String c r => String (lower c) (lower_string r)
  end.

(** Whether some character of [s] is a decimal digit. *)
Fixpoint has_digit (s : string) : bool :=
  match s with
  | EmptyString => false
  | String c r => is_digit c || has_digit r
  end.

(** The value a keyword dictionary holds for a unit; zero when absent. *)
Definition kw_get (d : list (unit_name * Z)) (u : unit_name) : Z :=
  match find (fun e => unit_name_eqb (fst e) u) d with
  | Some e => snd e
  | None => 0%Z
  end.



(** The fields whose items go into the command as they are. *)
Definition plain_fields : list string :=
  ["cap_add"; "cap_drop"; "devices"; "dns"; "dns_search"; "environment"; "expose";
   "extra_hosts"; "labels"].

(** The fields that give one optional flag with the value as it is. *)
Definition scalar_fields : list string :=
  ["container_name"; "pid"; "stop_signal"; "working_dir"].

(** The tokens before the deployment flag. *)
Definition context_head (args : arguments) : list pyval :=
  [PStr "telepresence"; PStr "--method"; PStr "container"; PStr "--context"; PStr (context args)].

(** Two outcomes of the same kind: both a result, or the same failure. *)
Definition same_kind {A B : Type} (r : result A) (r' : result B) : Prop :=
  match r, r' with
  | Ok _, Ok _ => True
  | Raise e, Raise e' => e = e'
  | SysExit m, SysExit m' => m = m'
  | _, _ => False
  end.

(** The outcomes of a run with [--swap] and of a run without: both fail
    alike, or both assemble a command and the two commands differ in the
    deployment pair only. *)
Definition same_but_deployment (args : arguments) (t f : result (list pyval)) : Prop :=
  match t, f with
  | Ok toks, Ok toks' =>
      exists rest,
        toks = (context_head args ++ [PStr "--swap-deployment"; PStr (service args)] ++ rest)%list
        /\ toks' = (context_head args
                    ++ [PStr "--new-deployment"; PStr ("tele-" ++ service args)] ++ rest)%list
  | Raise e, Raise e' => e = e'
  | SysExit m, SysExit m' => m = m'
  | _, _ => False
  end.

(** The keys of a service entry whose value [main] uses as a whole. *)
Definition whole_fields : list string :=
  ["entrypoint"; "image"; "container_name"; "pid"; "stop_grace_period"; "stop_signal";
   "working_dir"; "env_file"; "ports"; "volumes"].

(** Further sample entries. *)
Definition svc_with_other_keys : list (pyval * pyval) :=
  [(PStr "restart", PStr "always"); (PStr "image", PStr "nginx");
   (PStr "depends_on", PList [PStr "db"]); (PStr "pid", PStr "host");
   (PStr "build", PDict [(PStr "context", PStr ".")])].

Definition svc_with_environment (value : string) : list (pyval * pyval) :=
  [(PStr "image", PStr "nginx");
   (PStr "environment", PDict [(PStr "MODE", PStr value); (PStr "DEBUG", PInt 1)])].

(** * Properties *)

(** ** The model on concrete inputs *)

Example repr_examples :
  py_repr (PList [PStr "web"; PInt 80; PBool true; PNone]) = "['web', 80, True, None]"
  /\ py_repr (PStr "it's") = String dquote ("it's" ++ String dquote EmptyString)
  /\ py_str (PInt (-5)) = "-5" /\ py_str (PInt 0) = "0".
Proof. repeat split; reflexivity. Qed.

Example split_examples :
  split_on " " "a  b" = ["a"; ""; "b"] /\ split_on " " "" = [""]
  /\ join " " ["a"; "b"; "c"] = "a b c".
Proof. repeat split; reflexivity. Qed.

Example path_examples :
  normpath "/a/./b/../c" = "/a/c" /\ normpath "//x//y/" = "//x/y" /\ normpath "///x" = "/x"
  /\ normpath "../a/../.." = "../.." /\ normpath "/.." = "/" /\ normpath "a/.." = "."
  /\ dirname "/proj/docker-compose.yml" = "/proj" /\ dirname "docker-compose.yml" = ""
  /\ dirname "/compose.yml" = "/" /\ dirname "a//b" = "a"
  /\ path_str (parse_parts ["/proj"; "./x"]) = "/proj/x"
  /\ path_str (parse_parts [""; "x/../y"]) = "x/../y"
  /\ path_str (parse_parts ["a"; "/b"]) = "/b".
Proof. repeat split; reflexivity. Qed.

Example expanduser_examples :
  os_path_expanduser sample_env "~" = Ok "/home/dev"
  /\ os_path_expanduser (mkEnv "/work" (Some "/home/dev//") None (fun _ => None)) "~/x"
     = Ok "/home/dev/x"
  /\ os_path_expanduser (mkEnv "/work" (Some "") None (fun _ => None)) "~" = Ok "/"
  /\ os_path_expanduser (mkEnv "/work" None (Some "/root") (fun _ => None)) "~" = Ok "/root"
  /\ os_path_expanduser (mkEnv "/work" None None (fun _ => None)) "~" = Ok "~"
  /\ os_path_expanduser sample_env "~ghost" = Ok "~ghost"
  /\ os_path_expanduser sample_env ("~a" ++ String nul "b") = Raise ValueError
  /\ os_path_expanduser sample_env "plain" = Ok "plain"
  /\ map_result (fun p => path <- expanduser sample_env (parse_parts [p]) ;; Ok (path_str path))
       ["~/a/b"; "x/~"; "/~"]
     = Ok ["/home/dev/a/b"; "x/~"; "/~"]
  /\ expanduser sample_env (parse_parts ["~ghost/a"]) = Raise RuntimeError
  /\ expanduser (mkEnv "/work" (Some "~odd") None (fun _ => None)) (parse_parts ["~/a"])
     = Raise RuntimeError.
Proof. repeat split; reflexivity. Qed.

Example duration_examples :
  finditer "1h30m" = [("1", "h"); ("30", "m")]
  /\ finditer "x12 7W3" = [("12", ""); ("7", "W"); ("3", "")]
  /\ convert_to_seconds "1h30m" = Ok 5400%Z
  /\ convert_to_seconds "45" = Ok 45%Z
  /\ convert_to_seconds "" = Ok 0%Z
  /\ convert_to_seconds "1000000000d" = Raise OverflowError
  /\ py_int "0042" = Ok 42%Z
  /\ over_limit (concat EmptyString (repeat "0" 4300)) = false
  /\ convert_to_seconds (concat EmptyString (repeat "0" 4301) ++ "s") = Raise ValueError.
Proof. repeat split; vm_compute; reflexivity. Qed.

(** ** The result monad *)

Lemma bind_ok_inv {A B : Type} (r : result A) (k : A -> result B) (b : B) :
  bind r k = Ok b -> exists a, r = Ok a /\ k a = Ok b.
Proof.
  destruct r as [a | e | m]; simpl; intro H; try discriminate.
  exists a; split; [reflexivity | exact H].
Qed.

Lemma bind_not_ok {A B : Type} (r : result A) (k : A -> result B) :
  is_ok r = false -> is_ok (bind r k) = false.
Proof. destruct r; simpl; intro H; try discriminate; reflexivity. Qed.

Lemma is_ok_false_neq {A : Type} (r : result A) :
  is_ok r = false <-> forall a, r <> Ok a.
Proof.
  split.
  - intros H a Heq; rewrite Heq in H; discriminate.
  - destruct r as [a | |]; intro H; [exfalso; exact (H a eq_refl) | reflexivity | reflexivity].
Qed.

Lemma map_result_ok_inv {A B : Type} (f : A -> result B) (l : list A) (ys : list B) :
  map_result f l = Ok ys -> Forall2 (fun x y => f x = Ok y) l ys.
Proof.
  revert ys; induction l as [| x t IH]; simpl; intros ys H.
  - inversion H; constructor.
  - apply bind_ok_inv in H as (y & Hy & H).
    apply bind_ok_inv in H as (ys' & Hys & H).
    inversion H; subst; constructor; auto.
Qed.

Lemma map_result_fails {A B : Type} (f : A -> result B) (l : list A) (x : A) :
  In x l -> is_ok (f x) = false -> is_ok (map_result f l) = false.
Proof.
  induction l as [| a t IH]; simpl; intros Hin Hx; [contradiction |].
  destruct Hin as [-> | Hin].
  - apply bind_not_ok; exact Hx.
  - destruct (f a); simpl; try reflexivity.
    apply bind_not_ok, IH; assumption.
Qed.

(** ** [split] and [join] *)

Lemma startswith_sep (s : string) :
  startswith s "/" = match s with String c _ => Ascii.eqb c sep | EmptyString => false end.
Proof. destruct s as [| c r]; simpl; [reflexivity | apply andb_true_r]. Qed.


Lemma split_on_no_char (c : ascii) (s : string) :
  Forall (fun x => contains_char c x = false) (split_on c s).
Proof.
  induction s as [| a r IH]; simpl.
  - repeat constructor.
  - destruct (Ascii.eqb a c) eqn:E.
    + constructor; [reflexivity | exact IH].
    + destruct (split_on c r) as [| h t].
      * constructor; [simpl; rewrite E; reflexivity | constructor].
      * inversion IH; subst; constructor; [simpl; rewrite E; assumption | assumption].
Qed.

Lemma split_on_free (c : ascii) (s : string) :
  contains_char c s = false -> split_on c s = [s].
Proof.
  induction s as [| a r IH]; simpl; intro H; [reflexivity |].
  apply orb_false_iff in H as [Ha Hr].
  rewrite Ha, (IH Hr); reflexivity.
Qed.

Lemma split_on_app (c : ascii) (x r : string) :
  contains_char c x = false -> split_on c (x ++ String c r) = x :: split_on c r.
Proof.
  induction x as [| a x IH]; simpl; intro H.
  - rewrite Ascii.eqb_refl; reflexivity.
  - apply orb_false_iff in H as [Ha Hx].
    rewrite Ha, (IH Hx); reflexivity.
Qed.

Lemma split_join (c : ascii) (l : list string) :
  l <> [] -> Forall (fun x => contains_char c x = false) l ->
  split_on c (join (String c EmptyString) l) = l.
Proof.
  induction l as [| x t IH]; intros Hne Hall; [contradiction |].
  inversion Hall as [| ? ? Hx Ht]; subst.
  destruct t as [| y t].
  - simpl; apply split_on_free; exact Hx.
  - change (join (String c EmptyString) (x :: y :: t))
      with (x ++ String c (join (String c EmptyString) (y :: t))).
    rewrite (split_on_app _ _ _ Hx), IH; [reflexivity | discriminate | exact Ht].
Qed.


Lemma append_assoc (a b c : string) : (a ++ b) ++ c = a ++ b ++ c.
Proof. induction a as [| x a IH]; simpl; [reflexivity | rewrite IH; reflexivity]. Qed.

Lemma append_eq_nil (a b : string) : a ++ b = EmptyString -> a = EmptyString /\ b = EmptyString.
Proof. destruct a; simpl; intro H; [auto | discriminate]. Qed.

(** ** [normpath] is idempotent and keeps an anchored path anchored *)

Lemma stack_ok_nil (rooted : bool) : stack_ok rooted [].
Proof. exists [], 0; repeat split; auto. Qed.

Lemma plain_inv (x : string) :
  plain x = true ->
  String.eqb x EmptyString = false /\ String.eqb x "." = false /\ String.eqb x ".." = false.
Proof.
  unfold plain, keep_part; intro H.
  apply andb_true_iff in H as [H1 H3]; apply andb_true_iff in H1 as [H1 H2].
  repeat split; apply negb_true_iff; assumption.
Qed.

Lemma norm_step_ok (rooted : bool) (s : list string) (comp : string) :
  stack_ok rooted s -> stack_ok rooted (norm_step rooted s comp).
Proof.
  intros (body & k & -> & Hb & Hk); unfold norm_step.
  destruct (String.eqb comp EmptyString) eqn:E1; simpl; [exists body, k; auto |].
  destruct (String.eqb comp ".") eqn:E2; simpl; [exists body, k; auto |].
  destruct (String.eqb comp "..") eqn:E3; simpl.
  - apply String.eqb_eq in E3; subst comp.
    destruct body as [| b body]; simpl.
    + destruct k as [| k]; simpl.
      * destruct rooted; simpl; [apply stack_ok_nil |].
        exists [], 1; repeat split; [constructor | discriminate].
      * rewrite orb_true_r.
        exists [], (S (S k)); repeat split; [constructor |].
        intro Hr; specialize (Hk Hr); discriminate.
    + inversion Hb as [| ? ? Hpb Hb']; subst.
      destruct (plain_inv _ Hpb) as (_ & _ & Hdd); rewrite Hdd, andb_false_r; simpl.
      exists body, k; auto.
  - exists (comp :: body), k; repeat split; auto.
    constructor; [| exact Hb].
    unfold plain, keep_part; rewrite E1, E2, E3; reflexivity.
Qed.

Lemma norm_fold_ok (rooted : bool) (l s : list string) :
  stack_ok rooted s -> stack_ok rooted (fold_left (norm_step rooted) l s).
Proof.
  revert s; induction l as [| c l IH]; simpl; intros s H; [exact H |].
  apply IH, norm_step_ok, H.
Qed.

Lemma stack_ok_tail (rooted : bool) (x : string) (s : list string) :
  stack_ok rooted (x :: s) -> stack_ok rooted s.
Proof.
  intros (body & k & Heq & Hb & Hk).
  destruct body as [| b body]; simpl in Heq.
  - destruct k as [| k]; simpl in Heq; [discriminate |].
    inversion Heq; subst.
    exists [], k; repeat split; [constructor |].
    intro Hr; specialize (Hk Hr); discriminate.
  - inversion Heq; subst; inversion Hb; subst.
    exists body, k; auto.
Qed.

Lemma stack_ok_suffix (rooted : bool) (a b : list string) :
  stack_ok rooted (a ++ b)%list -> stack_ok rooted b.
Proof.
  induction a as [| x a IH]; simpl; intro H; [exact H |].
  apply IH, (stack_ok_tail _ _ _ H).
Qed.

Lemma stack_ok_push (rooted : bool) (x : string) (s : list string) :
  stack_ok rooted (x :: s) -> norm_step rooted s x = x :: s.
Proof.
  intros (body & k & Heq & Hb & Hk); unfold norm_step.
  destruct body as [| b body]; simpl in Heq.
  - destruct k as [| k]; simpl in Heq; [discriminate |].
    inversion Heq; subst; simpl.
    assert (Hr : rooted = false).
    { destruct rooted; [specialize (Hk eq_refl); discriminate | reflexivity]. }
    rewrite Hr; destruct k; reflexivity.
  - inversion Heq; subst; inversion Hb as [| ? ? Hpb Hb']; subst.
    destruct (plain_inv _ Hpb) as (E1 & E2 & E3); rewrite E1, E2, E3; reflexivity.
Qed.

Lemma norm_fold_stable (rooted : bool) (l s : list string) :
  stack_ok rooted (rev l ++ s)%list ->
  fold_left (norm_step rooted) l s = (rev l ++ s)%list.
Proof.
  revert s; induction l as [| x l IH]; simpl; intros s H; [reflexivity |].
  rewrite <- app_assoc in H; simpl in H.
  rewrite (stack_ok_push _ _ _ (stack_ok_suffix _ _ _ H)), (IH _ H), <- app_assoc.
  reflexivity.
Qed.

Lemma norm_comps_ok (rooted : bool) (l : list string) : stack_ok rooted (rev (norm_comps rooted l)).
Proof.
  unfold norm_comps; rewrite rev_involutive.
  apply norm_fold_ok, stack_ok_nil.
Qed.

Lemma norm_comps_idem (rooted : bool) (l : list string) :
  norm_comps rooted (norm_comps rooted l) = norm_comps rooted l.
Proof.
  pose proof (norm_comps_ok rooted l) as H.
  unfold norm_comps at 1.
  rewrite norm_fold_stable; rewrite app_nil_r; [apply rev_involutive | exact H].
Qed.

Lemma norm_fold_skip (rooted : bool) (n : nat) (l s : list string) :
  fold_left (norm_step rooted) (repeat EmptyString n ++ l)%list s
  = fold_left (norm_step rooted) l s.
Proof. induction n as [| n IH]; simpl; [reflexivity | exact IH]. Qed.

Lemma norm_step_incl (rooted : bool) (s : list string) (c x : string) :
  In x (norm_step rooted s c) -> In x s \/ x = c.
Proof.
  unfold norm_step.
  destruct (String.eqb c EmptyString || String.eqb c "."); [auto |].
  match goal with |- context [if ?b then _ else _] => destruct b end.
  - simpl; intros [H | H]; auto.
  - destruct s; simpl; auto.
Qed.

Lemma norm_fold_incl (rooted : bool) (l s : list string) (x : string) :
  In x (fold_left (norm_step rooted) l s) -> In x s \/ In x l.
Proof.
  revert s; induction l as [| c l IH]; simpl; intros s H; [auto |].
  destruct (IH _ H) as [H' | H']; [| auto].
  destruct (norm_step_incl _ _ _ _ H'); auto.
Qed.

Lemma norm_comps_incl (rooted : bool) (l : list string) (x : string) :
  In x (norm_comps rooted l) -> In x l.
Proof.
  unfold norm_comps; rewrite <- in_rev; intro H.
  destruct (norm_fold_incl _ _ _ _ H) as [[] | H']; exact H'.
Qed.

Lemma stack_ok_keep (rooted : bool) (s : list string) :
  stack_ok rooted s -> Forall (fun x => keep_part x = true) s.
Proof.
  intros (body & k & -> & Hb & _).
  apply Forall_app; split.
  - eapply Forall_impl; [| exact Hb].
    intros x Hx; unfold plain in Hx; apply andb_true_iff in Hx as [Hx _]; exact Hx.
  - apply Forall_forall; intros x Hx; apply repeat_spec in Hx; subst; reflexivity.
Qed.

Lemma initial_slashes_0 (s : string) :
  startswith s "/" = false -> initial_slashes s = 0.
Proof. unfold initial_slashes; intros ->; reflexivity. Qed.

Lemma initial_slashes_1 (s : string) :
  startswith s "/" = false -> initial_slashes (String sep s) = 1.
Proof.
  intro H; unfold initial_slashes.
  change (startswith (String sep s) "/") with (Ascii.eqb sep sep && startswith s EmptyString).
  change (startswith (String sep s) "//") with (Ascii.eqb sep sep && startswith s "/").
  rewrite H; reflexivity.
Qed.

Lemma initial_slashes_2 (s : string) :
  startswith s "/" = false -> initial_slashes (String sep (String sep s)) = 2.
Proof.
  intro H; unfold initial_slashes.
  change (startswith (String sep (String sep s)) "///")
    with (Ascii.eqb sep sep && (Ascii.eqb sep sep && startswith s "/")).
  rewrite H; reflexivity.
Qed.

Lemma initial_slashes_le (s : string) : initial_slashes s <= 2.
Proof.
  unfold initial_slashes.
  destruct (startswith s "/"); [| lia].
  destruct (startswith s "//" && negb (startswith s "///")); lia.
Qed.

Lemma initial_slashes_anchored (s : string) :
  startswith s "/" = true -> 1 <= initial_slashes s.
Proof.
  unfold initial_slashes; intros ->.
  destruct (startswith s "//" && negb (startswith s "///")); lia.
Qed.

Lemma keep_part_nonempty (x : string) : keep_part x = true -> x <> EmptyString.
Proof. intros H ->; discriminate. Qed.

Lemma join_head_not_sep (l : list string) :
  Forall (fun x => keep_part x = true) l ->
  Forall (fun x => contains_char sep x = false) l ->
  startswith (join "/" l) "/" = false.
Proof.
  intros Hk Hs; destruct l as [| x t]; [reflexivity |].
  inversion Hk as [| ? ? Hx _]; inversion Hs as [| ? ? Hsx _]; subst.
  destruct x as [| c x]; [discriminate |].
  simpl in Hsx; apply orb_false_iff in Hsx as [Hc _].
  rewrite startswith_sep.
  destruct t; simpl; exact Hc.
Qed.

Lemma join_cons_nonempty (d x : string) (t : list string) :
  x <> EmptyString -> join d (x :: t) <> EmptyString.
Proof.
  intro Hx; destruct t; simpl; [exact Hx |].
  destruct x; [contradiction | discriminate].
Qed.

(** Splitting a joined list of clean parts gives parts that normalize to the
    list itself. *)
Lemma norm_comps_split_join (rooted : bool) (nc : list string) :
  Forall (fun x => contains_char sep x = false) nc ->
  norm_comps rooted nc = nc ->
  norm_comps rooted (split_on sep (join "/" nc)) = nc.
Proof.
  intros Hs Hn; destruct nc as [| x t]; [reflexivity |].
  change "/" with (String sep EmptyString).
  rewrite split_join; [exact Hn | discriminate | exact Hs].
Qed.

Lemma normpath_of_normal (n : nat) (nc : list string) :
  n <= 2 ->
  Forall (fun x => keep_part x = true) nc ->
  Forall (fun x => contains_char sep x = false) nc ->
  norm_comps (0 <? n)%nat nc = nc ->
  normpath (slashes n ++ join "/" nc)
  = if String.eqb (slashes n ++ join "/" nc) EmptyString then "."
    else slashes n ++ join "/" nc.
Proof.
  intros Hn Hk Hs Hnc.
  pose proof (join_head_not_sep nc Hk Hs) as Hh.
  destruct n as [| [| [| n]]]; [| | | lia].
  - change (slashes 0 ++ join "/" nc) with (join "/" nc).
    destruct (String.eqb (join "/" nc) EmptyString) eqn:E.
    + apply String.eqb_eq in E; rewrite E; reflexivity.
    + unfold normpath; rewrite E, (initial_slashes_0 _ Hh).
      rewrite (norm_comps_split_join _ nc Hs Hnc).
      change (slashes 0 ++ join "/" nc) with (join "/" nc); rewrite E; reflexivity.
  - change (slashes 1 ++ join "/" nc) with (String sep (join "/" nc)).
    unfold normpath.
    change (String.eqb (String sep (join "/" nc)) EmptyString) with false; cbv iota.
    rewrite (initial_slashes_1 _ Hh).
    change (split_on sep (String sep (join "/" nc)))
      with (EmptyString :: split_on sep (join "/" nc)).
    change (norm_comps (0 <? 1)%nat (EmptyString :: split_on sep (join "/" nc)))
      with (norm_comps (0 <? 1)%nat (split_on sep (join "/" nc))).
    rewrite (norm_comps_split_join _ nc Hs Hnc); reflexivity.
  - change (slashes 2 ++ join "/" nc) with (String sep (String sep (join "/" nc))).
    unfold normpath.
    change (String.eqb (String sep (String sep (join "/" nc))) EmptyString) with false; cbv iota.
    rewrite (initial_slashes_2 _ Hh).
    change (split_on sep (String sep (String sep (join "/" nc))))
      with (EmptyString :: EmptyString :: split_on sep (join "/" nc)).
    change (norm_comps (0 <? 2)%nat (EmptyString :: EmptyString :: split_on sep (join "/" nc)))
      with (norm_comps (0 <? 2)%nat (split_on sep (join "/" nc))).
    rewrite (norm_comps_split_join _ nc Hs Hnc); reflexivity.
Qed.

(** The three facts about the parts [normpath] keeps. *)
Lemma norm_comps_facts (rooted : bool) (p : string) :
  let nc := norm_comps rooted (split_on sep p) in
  Forall (fun x => keep_part x = true) nc
  /\ Forall (fun x => contains_char sep x = false) nc
  /\ norm_comps rooted nc = nc.
Proof.
  intro nc; repeat split.
  - pose proof (stack_ok_keep _ _ (norm_comps_ok rooted (split_on sep p))) as H.
    apply Forall_rev in H; rewrite rev_involutive in H; exact H.
  - apply Forall_forall; intros x Hx.
    apply norm_comps_incl in Hx.
    exact (proj1 (Forall_forall _ _) (split_on_no_char sep p) x Hx).
  - apply norm_comps_idem.
Qed.

Lemma normpath_unfold (p : string) :
  p <> EmptyString ->
  let n := initial_slashes p in
  let nc := norm_comps (0 <? n)%nat (split_on sep p) in
  normpath p = if String.eqb (slashes n ++ join "/" nc) EmptyString then "."
               else slashes n ++ join "/" nc.
Proof.
  intros Hp n nc; unfold normpath.
  apply String.eqb_neq in Hp; rewrite Hp; reflexivity.
Qed.

Lemma normpath_idem (p : string) : normpath (normpath p) = normpath p.
Proof.
  destruct (String.eqb p EmptyString) eqn:Ep.
  - apply String.eqb_eq in Ep; subst; reflexivity.
  - apply String.eqb_neq in Ep.
    rewrite (normpath_unfold p Ep).
    destruct (norm_comps_facts (0 <? initial_slashes p)%nat p) as (Hk & Hs & Hn).
    pose proof (normpath_of_normal (initial_slashes p) _ (initial_slashes_le p) Hk Hs Hn) as H.
    destruct (String.eqb _ EmptyString) eqn:E in |- *; [reflexivity |].
    rewrite H, E; reflexivity.
Qed.

Lemma normpath_anchored (p : string) :
  startswith p "/" = true -> startswith (normpath p) "/" = true.
Proof.
  intro H.
  assert (Hp : p <> EmptyString) by (intros ->; discriminate).
  rewrite (normpath_unfold p Hp).
  pose proof (initial_slashes_anchored p H) as H1.
  pose proof (initial_slashes_le p) as H2.
  destruct (initial_slashes p) as [| [| [| n]]]; try lia; reflexivity.
Qed.

(** ** Parsed paths *)

Lemma splitroot_anchored (part : string) :
  startswith part "/" = true ->
  fst (splitroot part) = "/" \/ fst (splitroot part) = "//".
Proof.
  unfold splitroot; intros ->.
  destruct (String.length part - String.length (lstrip_sep part) =? 2)%nat; simpl; auto.
Qed.

Lemma splitroot_relative (part : string) :
  startswith part "/" = false -> splitroot part = (EmptyString, part).
Proof. unfold splitroot; intros ->; reflexivity. Qed.

Lemma filter_split_no_sep (rel : string) :
  Forall (fun x => contains_char sep x = false) (filter keep_part (split_on sep rel)).
Proof.
  apply Forall_forall; intros x Hx; apply filter_In in Hx as [Hx _].
  exact (proj1 (Forall_forall _ _) (split_on_no_char sep rel) x Hx).
Qed.

Lemma parse_part_wf (acc : PosixPath) (part : string) :
  wf_path acc -> wf_path (parse_part acc part).
Proof.
  intros [Hr Hp]; unfold parse_part.
  destruct (String.eqb part EmptyString); [split; assumption |].
  destruct (startswith part "/") eqn:E.
  - destruct (splitroot_anchored part E) as [H | H];
      destruct (splitroot part) as [r rel]; simpl in H; subst r; simpl;
      (split; [auto | apply filter_split_no_sep]).
  - rewrite (splitroot_relative part E); simpl; split; [exact Hr |].
    apply Forall_app; split; [exact Hp | apply filter_split_no_sep].
Qed.

Lemma parse_fold_wf (l : list string) (acc : PosixPath) :
  wf_path acc -> wf_path (fold_left parse_part l acc).
Proof.
  revert acc; induction l as [| x l IH]; simpl; intros acc H; [exact H |].
  apply IH, parse_part_wf, H.
Qed.

Lemma parse_parts_wf (l : list string) : wf_path (parse_parts l).
Proof. apply parse_fold_wf; split; [left; reflexivity | constructor]. Qed.

Lemma no_sep_relative (x : string) :
  contains_char sep x = false -> startswith x "/" = false.
Proof.
  rewrite startswith_sep; destruct x as [| c x]; simpl; [reflexivity |].
  intro H; apply orb_false_iff in H as [H _]; exact H.
Qed.

Lemma parse_part_keeps_root (acc : PosixPath) (x : string) :
  contains_char sep x = false -> root (parse_part acc x) = root acc.
Proof.
  intro H; unfold parse_part.
  destruct (String.eqb x EmptyString); [reflexivity |].
  rewrite (splitroot_relative x (no_sep_relative x H)); reflexivity.
Qed.

Lemma parse_fold_keeps_root (l : list string) (acc : PosixPath) :
  Forall (fun x => contains_char sep x = false) l ->
  root (fold_left parse_part l acc) = root acc.
Proof.
  revert acc; induction l as [| x l IH]; simpl; intros acc H; [reflexivity |].
  inversion H; subst; rewrite IH, parse_part_keeps_root; auto.
Qed.

Lemma path_str_anchored (p : PosixPath) :
  root p = "/" \/ root p = "//" -> startswith (path_str p) "/" = true.
Proof. unfold path_str; intros [-> | ->]; reflexivity. Qed.

Lemma absolute_anchored (env : os_env) (p : PosixPath) :
  startswith (getcwd env) "/" = true -> wf_path p ->
  startswith (path_str (absolute env p)) "/" = true.
Proof.
  intros Hcwd [Hr Hp]; apply path_str_anchored; unfold absolute.
  destruct (String.eqb (root p) EmptyString) eqn:E; simpl.
  - unfold parse_parts; simpl.
    rewrite (parse_fold_keeps_root _ _ Hp); unfold parse_part.
    destruct (String.eqb (getcwd env) EmptyString) eqn:E0.
    + apply String.eqb_eq in E0; rewrite E0 in Hcwd; discriminate.
    + destruct (splitroot_anchored _ Hcwd) as [H | H];
        destruct (splitroot (getcwd env)) as [r rel]; simpl in H; subst r; simpl; auto.
  - apply String.eqb_neq in E; destruct Hr as [H | H]; [contradiction | exact H].
Qed.

Lemma expanduser_wf (env : os_env) (p q : PosixPath) :
  wf_path p -> expanduser env p = Ok q -> wf_path q.
Proof.
  unfold expanduser; intros Hp H.
  destruct (String.eqb (root p) EmptyString); [| inversion H; subst; exact Hp].
  destruct (parts p) as [| first rest]; [inversion H; subst; exact Hp |].
  destruct (startswith first "~"); [| inversion H; subst; exact Hp].
  apply bind_ok_inv in H as (homedir & _ & H).
  destruct (startswith homedir "~"); inversion H; subst.
  apply parse_parts_wf.
Qed.

(** What the script emits for a path it resolves: anchored and a fixed point
    of [normpath]. *)
Lemma resolved_path_normal (env : os_env) (p : PosixPath) :
  startswith (getcwd env) "/" = true -> wf_path p ->
  let out := normpath (path_str (absolute env p)) in
  startswith out "/" = true /\ normpath out = out.
Proof.
  intros Hcwd Hp out; split.
  - apply normpath_anchored, absolute_anchored; assumption.
  - apply normpath_idem.
Qed.

(** ** The shape of the command [main] builds *)

Lemma chain_combine (flag : pyval) (l : list pyval) :
  chain_from_iterable (combine (repeat flag (List.length l)) l)
  = flat_map (fun x => [flag; x]) l.
Proof. induction l as [| x l IH]; simpl; [reflexivity | rewrite <- IH; reflexivity]. Qed.

Lemma length_chars (s : string) : List.length (chars s) = String.length s.
Proof.
  unfold chars; rewrite length_map.
  induction s as [| c s IH]; simpl; [reflexivity | rewrite IH; reflexivity].
Qed.

Lemma flag_pairs_ok (flag : string) (v : pyval) (it : iterator) :
  flag_pairs flag v = Ok it -> py_iter v = Ok (items_of v) /\ it = pairs flag (items_of v).
Proof.
  unfold flag_pairs, items_of, pairs.
  destruct v; simpl; intro H; try discriminate; inversion H; subst; split; try reflexivity.
  - rewrite <- length_chars; apply chain_combine.
  - apply chain_combine.
  - rewrite <- (length_map fst); apply chain_combine.
Qed.

Lemma iter_map_ok {B : Type} (f : pyval -> result B) (v : pyval) (ys : list B) :
  (items <- py_iter v ;; map_result f items) = Ok ys ->
  py_iter v = Ok (items_of v) /\ map_result f (items_of v) = Ok ys.
Proof.
  intro H; apply bind_ok_inv in H as (items & Hi & H).
  unfold items_of; rewrite Hi; auto.
Qed.

Lemma entrypoint_split_ok (raw svc_entrypoint : pyval) (split : list pyval) :
  match raw with
  | PList l => s <- str_join " " l ;; Ok (PStr s)
  | _ => Ok raw
  end = Ok svc_entrypoint ->
  (if truthy svc_entrypoint then
     match svc_entrypoint with
     | PStr s => Ok (map PStr (split_on " " s))
     | _ => Raise AttributeError
     end
   else Ok []) = Ok split ->
  exists tokens,
    split = map PStr tokens
    /\ match raw with
       | PList l => exists joined, str_join " " l = Ok joined /\ tokens = entrypoint_tokens joined
       | PStr s => tokens = entrypoint_tokens s
       | _ => tokens = []
       end.
Proof.
  unfold entrypoint_tokens; intros He Hs.
  destruct raw as [| b | z | nz t | s | l | d].
  1-4, 7: inversion He; subst svc_entrypoint;
    destruct (truthy _); inversion Hs; exists []; split; reflexivity.
  - inversion He; subst svc_entrypoint; simpl in Hs.
    destruct (String.eqb s EmptyString); simpl in Hs; inversion Hs.
    + exists []; split; reflexivity.
    + exists (split_on " " s); split; reflexivity.
  - apply bind_ok_inv in He as (joined & Hj & He); inversion He; subst svc_entrypoint.
    simpl in Hs; destruct (String.eqb joined EmptyString) eqn:E; simpl in Hs; inversion Hs.
    + exists []; split; [reflexivity |]. exists joined; rewrite E; auto.
    + exists (split_on " " joined); split; [reflexivity |]. exists joined; rewrite E; auto.
Qed.

Lemma stop_flag_ok (v : pyval) (cmd cmd' : list pyval) :
  (if truthy v then
     s <- as_str v ;;
     secs <- convert_to_seconds s ;;
     Ok (cmd ++ [PStr "--stop-timeout"; PStr (int_str secs)])%list
   else Ok cmd) = Ok cmd' ->
  exists stop, stop_flag v = Ok stop /\ cmd' = (cmd ++ stop)%list.
Proof.
  unfold stop_flag; destruct (truthy v).
  - intro H; apply bind_ok_inv in H as (s & Hs & H).
    apply bind_ok_inv in H as (secs & Hsecs & H); inversion H; subst.
    rewrite Hs; simpl; rewrite Hsecs; simpl; eauto.
  - intro H; inversion H; subst; exists []; rewrite app_nil_r; auto.
Qed.

Lemma if_app {A : Type} (b : bool) (c x : list A) :
  (if b then (c ++ x)%list else c) = (c ++ (if b then x else []))%list.
Proof. destruct b; [reflexivity | symmetry; apply app_nil_r]. Qed.

Lemma tl_if_long {A : Type} (l : list A) :
  (if (1 <? List.length l)%nat then tl l else []) = tl l.
Proof. destruct l as [| x [| y l]]; reflexivity. Qed.

Lemma main_cmd_shape (args : arguments) (env : os_env) (svc : list (pyval * pyval))
      (toks : list pyval) :
  main_cmd args env (PDict svc) = Ok toks ->
  exists (tokens : list string) (stop svc_ports env_file_list volume_list : list pyval),
    (match dict_get svc "entrypoint" with
     | PList l => exists joined, str_join " " l = Ok joined /\ tokens = entrypoint_tokens joined
     | PStr s => tokens = entrypoint_tokens s
     | _ => tokens = []
     end)
    /\ stop_flag (dict_get svc "stop_grace_period") = Ok stop
    /\ map_result port_to_str (field svc "ports") = Ok svc_ports
    /\ map_result (env_file_to_str_lambda args env) (field svc "env_file") = Ok env_file_list
    /\ map_result (volume_to_str_lambda args env) (field svc "volumes") = Ok volume_list
    /\ toks =
       (proxy_head args
        ++ pairs "--expose" (field svc "expose")
        ++ proxy_fixed
        ++ opt_flag "--name" (dict_get svc "container_name")
        ++ entry_flag tokens
        ++ opt_flag "--pid" (dict_get svc "pid")
        ++ stop
        ++ opt_flag "--stop-signal" (dict_get svc "stop_signal")
        ++ opt_flag "--workdir" (dict_get svc "working_dir")
        ++ pairs "--cap-add" (field svc "cap_add")
        ++ pairs "--cap-drop" (field svc "cap_drop")
        ++ pairs "--devices" (field svc "devices")
        ++ pairs "--dns" (field svc "dns")
        ++ pairs "--dns-search" (field svc "dns_search")
        ++ env_file_list
        ++ pairs "-e" (field svc "environment")
        ++ pairs "--add-host" (field svc "extra_hosts")
        ++ pairs "-l" (field svc "labels")
        ++ pairs "-p" svc_ports
        ++ volume_list
        ++ [dict_get svc "image"]
        ++ map PStr (tl tokens))%list.
Proof.
  intro H; unfold main_cmd in H.
  apply bind_ok_inv in H as (svc_entrypoint & He & H).
  apply bind_ok_inv in H as (split & Hsplit & H).
  destruct (entrypoint_split_ok _ _ _ He Hsplit) as (tokens & -> & Htok); clear He Hsplit.
  apply bind_ok_inv in H as (svc_ports & Hports & H).
  apply iter_map_ok in Hports as [_ Hports].
  apply bind_ok_inv in H as (cap_add_list & H1 & H); apply flag_pairs_ok in H1 as [_ ->].
  apply bind_ok_inv in H as (cap_drop_list & H1 & H); apply flag_pairs_ok in H1 as [_ ->].
  apply bind_ok_inv in H as (devices_list & H1 & H); apply flag_pairs_ok in H1 as [_ ->].
  apply bind_ok_inv in H as (dns_list & H1 & H); apply flag_pairs_ok in H1 as [_ ->].
  apply bind_ok_inv in H as (dns_search_list & H1 & H); apply flag_pairs_ok in H1 as [_ ->].
  apply bind_ok_inv in H as (environment_list & H1 & H); apply flag_pairs_ok in H1 as [_ ->].
  apply bind_ok_inv in H as (expose_list & H1 & H); apply flag_pairs_ok in H1 as [_ ->].
  apply bind_ok_inv in H as (extra_host_list & H1 & H); apply flag_pairs_ok in H1 as [_ ->].
  apply bind_ok_inv in H as (label_list & H1 & H); apply flag_pairs_ok in H1 as [_ ->].
  apply bind_ok_inv in H as (port_list & H1 & H); apply flag_pairs_ok in H1 as [_ ->].
  apply bind_ok_inv in H as (env_file_list & Henv & H); apply iter_map_ok in Henv as [_ Henv].
  apply bind_ok_inv in H as (volume_list & Hvol & H); apply iter_map_ok in Hvol as [_ Hvol].
  unfold extend_iter in H; cbv beta iota zeta in H.
  apply bind_ok_inv in H as (cmd & Hstop & H).
  apply stop_flag_ok in Hstop as (stop & Hst & ->).
  rewrite !if_app, tl_if_long in H; inversion H; subst toks; clear H.
  exists tokens, stop, svc_ports, env_file_list, volume_list.
  repeat (split; [assumption |]).
  unfold proxy_head, proxy_fixed, opt_flag, entry_flag, field.
  rewrite app_nil_r.
  destruct tokens as [| first rest]; destruct (swap args); simpl map;
    rewrite <- ?app_assoc; reflexivity.
Qed.

(** ** From [main] to [main_cmd] *)

Lemma dict_find_present (d : list (pyval * pyval)) (k : string) (v : pyval) :
  dict_find d k = Some v -> existsb (key_is k) (map fst d) = true.
Proof.
  induction d as [| [k' v'] d IH]; simpl; intro H; [discriminate |].
  destruct (key_is k k'); [reflexivity | exact (IH H)].
Qed.


(** With a context and a service that the manifest has, [main] is the
    assembly of the command followed by the join and the print. *)
(** ** Steps through [main_cmd] *)

Lemma bind_Ok {A B : Type} (a : A) (k : A -> result B) : bind (Ok a) k = k a.
Proof. reflexivity. Qed.

Lemma flag_pairs_falsy (flag : string) (v : pyval) :
  truthy v = false -> flag_pairs flag (py_or v (PList [])) = Ok [].
Proof. unfold py_or; intros ->; reflexivity. Qed.

Lemma iter_map_falsy {B : Type} (f : pyval -> result B) (v : pyval) :
  truthy v = false -> (items <- py_iter (py_or v (PList [])) ;; map_result f items) = Ok [].
Proof. unfold py_or; intros ->; reflexivity. Qed.

Lemma flag_pairs_nil (flag : string) : flag_pairs flag (PList []) = Ok [].
Proof. reflexivity. Qed.

Lemma entry_tokens_unique (raw : pyval) (t t' : list string) :
  match raw with
  | PList l => exists joined, str_join " " l = Ok joined /\ t = entrypoint_tokens joined
  | PStr s => t = entrypoint_tokens s
  | _ => t = []
  end ->
  match raw with
  | PList l => exists joined, str_join " " l = Ok joined /\ t' = entrypoint_tokens joined
  | PStr s => t' = entrypoint_tokens s
  | _ => t' = []
  end ->
  t = t'.
Proof.
  destruct raw; try (intros -> ->; reflexivity).
  intros (j & Hj & ->) (j' & Hj' & ->); rewrite Hj in Hj'; inversion Hj'; reflexivity.
Qed.

Lemma ok_carries_bind {A B C : Type} (X : result A) (k1 : A -> result B) (k2 : A -> result C) :
  (forall a, ok_carries (k1 a) (k2 a)) -> ok_carries (bind X k1) (bind X k2).
Proof. intro H; destruct X; simpl; [apply H | |]; intro E; discriminate E. Qed.

Lemma ok_carries_bind_ok {A A' B C : Type} (X : result A) (b : A')
      (k1 : A -> result B) (k2 : A' -> result C) :
  (forall a, ok_carries (k1 a) (k2 b)) -> ok_carries (bind X k1) (bind (Ok b) k2).
Proof. intro H; destruct X; simpl; [apply H | |]; intro E; discriminate E. Qed.

Lemma ok_carries_bind2 {A B B' C C' : Type} (X : result A)
      (j1 : A -> result B) (j2 : A -> result B')
      (k1 : B -> result C) (k2 : B' -> result C') :
  (forall a, ok_carries (bind (j1 a) k1) (bind (j2 a) k2)) ->
  ok_carries (bind (bind X j1) k1) (bind (bind X j2) k2).
Proof. intro H; destruct X; simpl; [apply H | |]; intro E; discriminate E. Qed.

Lemma flag_pairs_list (flag : string) (l : list pyval) :
  flag_pairs flag (PList l) = Ok (pairs flag l).
Proof. unfold flag_pairs, pairs; simpl; rewrite chain_combine; reflexivity. Qed.

Lemma main_cmd_without_ports_ok (args : arguments) (env : os_env)
      (svc svc' : list (pyval * pyval)) :
  without_ports svc svc' ->
  ok_carries (main_cmd args env (PDict svc)) (main_cmd args env (PDict svc')).
Proof.
  intros [Hf H].
  assert (E : forall k, existsb (String.eqb k) used_keys = true -> String.eqb k "ports" = false ->
                        dict_get svc' k = dict_get svc k).
  { intros k Hk Hp; apply H; [| apply String.eqb_neq; exact Hp].
    apply existsb_exists in Hk as (x & Hx & Hkx); apply String.eqb_eq in Hkx; subst; exact Hx. }
  unfold main_cmd.
  rewrite (iter_map_falsy port_to_str _ Hf).
  rewrite (E "entrypoint" eq_refl eq_refl), (E "image" eq_refl eq_refl),
    (E "container_name" eq_refl eq_refl), (E "pid" eq_refl eq_refl),
    (E "stop_grace_period" eq_refl eq_refl), (E "stop_signal" eq_refl eq_refl),
    (E "working_dir" eq_refl eq_refl), (E "cap_add" eq_refl eq_refl),
    (E "cap_drop" eq_refl eq_refl), (E "devices" eq_refl eq_refl), (E "dns" eq_refl eq_refl),
    (E "dns_search" eq_refl eq_refl), (E "env_file" eq_refl eq_refl),
    (E "environment" eq_refl eq_refl), (E "expose" eq_refl eq_refl),
    (E "extra_hosts" eq_refl eq_refl), (E "labels" eq_refl eq_refl),
    (E "volumes" eq_refl eq_refl).
  do 2 (apply ok_carries_bind; intro).
  apply ok_carries_bind_ok; intro svc_ports.
  do 9 (apply ok_carries_bind; intro).
  rewrite !flag_pairs_list, !bind_Ok.
  do 2 (apply ok_carries_bind; intro).
  unfold extend_iter; cbv beta iota zeta.
  destruct (truthy (dict_get svc "stop_grace_period")); [| intros _; reflexivity].
  apply ok_carries_bind2; intro s.
  apply ok_carries_bind2; intro secs.
  intros _; reflexivity.
Qed.

Lemma field_falsy (svc : list (pyval * pyval)) (k : string) :
  truthy (dict_get svc k) = false -> field svc k = [].
Proof. unfold field, py_or; intros ->; reflexivity. Qed.

Lemma main_of_entry (args : arguments) (env : os_env) (doc spec : pyval) :
  context args <> EmptyString ->
  service_entry doc (service args) = Some spec ->
  main args env doc
  = (cmd <- main_cmd args env spec ;;
     finalCmd <- str_join " " cmd ;;
     Ok ("Docker command:" ++ newline ++ finalCmd)).
Proof.
  intros Hc He; unfold main; simpl truthy.
  apply String.eqb_neq in Hc; rewrite Hc; simpl.
  unfold service_entry in He.
  destruct doc as [| | | | | | top]; try discriminate.
  simpl; unfold dict_getitem.
  destruct (dict_find top "services") as [[| | | | | | services] |]; try discriminate.
  simpl; rewrite (dict_find_present _ _ _ He); simpl.
  unfold dict_getitem; rewrite He; reflexivity.
Qed.

Lemma main_no_context (args : arguments) (env : os_env) (doc : pyval) :
  context args = EmptyString -> main args env doc = SysExit "context MUST be passed".
Proof. intro H; unfold main; rewrite H; reflexivity. Qed.





(** ** Durations *)

Lemma unit_name_eqb_eq (a b : unit_name) : unit_name_eqb a b = true <-> a = b.
Proof. destruct a, b; simpl; split; intro H; try reflexivity; discriminate. Qed.

Lemma kw_set_fresh (d : list (unit_name * Z)) (k : unit_name) (v : Z) :
  ~ In k (map fst d) -> kw_set d k v = (d ++ [(k, v)])%list.
Proof.
  induction d as [| [k' v'] d IH]; simpl; intro H; [reflexivity |].
  destruct (unit_name_eqb k' k) eqn:E.
  - apply unit_name_eqb_eq in E; exfalso; apply H; left; exact E.
  - rewrite IH; [reflexivity | intro Hin; apply H; right; exact Hin].
Qed.

Lemma kw_total_app (a b : list (unit_name * Z)) :
  kw_total (a ++ b) = (kw_total a + kw_total b)%Z.
Proof.
  unfold kw_total; induction a as [| [u n] a IH]; simpl; [reflexivity |].
  rewrite IH; lia.
Qed.

Lemma kwargs_fold_distinct (ms : list (string * string)) (d : list (unit_name * Z)) :
  NoDup (map fst d ++ map (fun m => UNITS_get (snd m)) ms) ->
  kw_total (fold_left (fun d m => kw_set d (UNITS_get (snd m)) (int_of_digits (fst m))) ms d)
  = (kw_total d + fold_right (fun m acc => segment_seconds m + acc) 0 ms)%Z.
Proof.
  revert d; induction ms as [| m ms IH]; simpl; intros d H; [lia |].
  rewrite kw_set_fresh.
  - rewrite IH.
    + rewrite kw_total_app; unfold segment_seconds; simpl; lia.
    + rewrite map_app, <- app_assoc; exact H.
  - apply NoDup_remove_2 in H; intro Hin; apply H, in_or_app; left; exact Hin.
Qed.

(** The comprehension fails at the first run of digits that [int] refuses,
    and otherwise assigns every match in turn. *)
Lemma kwargs_from_fold (ms : list (string * string)) (d : list (unit_name * Z)) :
  kwargs_from ms d
  = if existsb (fun m => over_limit (fst m)) ms then Raise ValueError
    else Ok (fold_left (fun d m => kw_set d (UNITS_get (snd m)) (int_of_digits (fst m))) ms d).
Proof.
  revert d; induction ms as [| m ms IH]; intro d; simpl; [reflexivity |].
  unfold py_int; destruct (over_limit (fst m)); simpl; [reflexivity | apply IH].
Qed.

Lemma duration_kwargs_fold (s : string) :
  duration_kwargs s
  = if digits_over_limit s then Raise ValueError
    else Ok (fold_left (fun d m => kw_set d (UNITS_get (snd m)) (int_of_digits (fst m)))
                       (finditer s) []).
Proof. apply kwargs_from_fold. Qed.

(** When no run of digits is too long for [int], no unit occurs twice and
    the total is within the range of a [timedelta], the script returns the
    sum of all segments. *)
Lemma convert_to_seconds_distinct_units (s : string) :
  digits_over_limit s = false ->
  NoDup (map (fun m => UNITS_get (snd m)) (finditer s)) ->
  (-999999999 <= sum_of_segments s / 86400 <= 999999999)%Z ->
  convert_to_seconds s = Ok (sum_of_segments s).
Proof.
  intros Hlim Hnd Hrange; unfold convert_to_seconds.
  rewrite duration_kwargs_fold, Hlim; unfold timedelta_total_seconds; simpl bind.
  rewrite kwargs_fold_distinct by exact Hnd.
  change (kw_total []) with 0%Z; rewrite Z.add_0_l.
  fold (sum_of_segments s).
  destruct Hrange as [Hlo Hhi].
  apply Z.leb_le in Hlo, Hhi; rewrite Hlo, Hhi; reflexivity.
Qed.

(** C2.  The duration parser is specified to add up every segment, also when
    a unit letter occurs twice.  The script agrees on [1h30m] and [90m] (both
    5400); on [30m30m] it keeps the last [m] segment only and returns 1800,
    where the sum of the segments is 3600. *)
Theorem convert_to_seconds_repeated_unit :
  convert_to_seconds "1h30m" = Ok 5400%Z
  /\ convert_to_seconds "90m" = Ok 5400%Z
  /\ finditer "30m30m" = [("30", "m"); ("30", "m")]
  /\ sum_of_segments "30m30m" = 3600%Z
  /\ convert_to_seconds "30m30m" = Ok 1800%Z.
Proof. repeat split; reflexivity. Qed.

(** ** Paths in volumes and env files *)

Lemma startswith_sep_not_tilde (val : string) :
  startswith val "/" = true -> startswith val "~" = false.
Proof.
  destruct val as [| c r]; simpl; [discriminate |].
  rewrite !andb_true_r; intro H; apply Ascii.eqb_eq in H; subst c; reflexivity.
Qed.

Lemma os_path_expanduser_cases (env : os_env) (path : string) :
  (exists s, os_path_expanduser env path = Ok s)
  \/ os_path_expanduser env path = Raise ValueError.
Proof.
  unfold os_path_expanduser.
  destruct (negb (startswith path "~")); [eauto |].
  destruct (cut_at_sep (str_tail path)) as [name rest].
  destruct (String.eqb name EmptyString).
  - simpl; destruct (match environ_HOME env with Some home => Some home
                                                | None => getpwuid_dir env end); eauto.
  - destruct (contains_char nul name); [right; reflexivity |].
    simpl; destruct (getpwnam_dir env name); eauto.
Qed.

Lemma expanduser_cases (env : os_env) (p : PosixPath) :
  (exists q, expanduser env p = Ok q)
  \/ expanduser env p = Raise RuntimeError
  \/ expanduser env p = Raise ValueError.
Proof.
  unfold expanduser.
  destruct (String.eqb (root p) EmptyString); [| eauto].
  destruct (parts p) as [| first rest]; [eauto |].
  destruct (startswith first "~"); [| eauto].
  destruct (os_path_expanduser_cases env first) as [[s ->] | ->];
    [| right; right; reflexivity].
  cbn [bind]; destruct (startswith s "~"); [right; left; reflexivity | eauto].
Qed.

Lemma source_tilde (args : arguments) (env : os_env) (val : string) :
  startswith val "~" = true ->
  volume_dict_pairs_to_str args env (PStr "source", PStr val)
  = (path <- expanduser env (parse_parts [val]) ;;
     Ok ("source=" ++ normpath (path_str (absolute env path)))).
Proof.
  intro H; unfold volume_dict_pairs_to_str, py_startswith; cbn [fst snd].
  change (key_is "read_only" (PStr "source")) with false.
  change (key_is "source" (PStr "source")) with true; cbv iota.
  rewrite H; reflexivity.
Qed.

Lemma env_file_tilde (args : arguments) (env : os_env) (val : string) :
  startswith val "~" = true ->
  env_file_to_str_lambda args env (PStr val)
  = (path <- expanduser env (parse_parts [val]) ;;
     Ok (PStr ("--env-file " ++ normpath (path_str (absolute env path))))).
Proof.
  intro H; unfold env_file_to_str_lambda, py_startswith.
  rewrite H; reflexivity.
Qed.

Lemma source_other (args : arguments) (env : os_env) (val : string) :
  startswith val "~" = false ->
  volume_dict_pairs_to_str args env (PStr "source", PStr val)
  = if startswith val "/" then Ok ("source=" ++ val)
    else Ok ("source=" ++ normpath (path_str (absolute env
               (parse_parts [dirname (composefile args); val])))).
Proof.
  intro H; unfold volume_dict_pairs_to_str, py_startswith; cbn [fst snd].
  change (key_is "read_only" (PStr "source")) with false.
  change (key_is "source" (PStr "source")) with true; cbv iota.
  rewrite H; cbn [bind]; destruct (startswith val "/"); reflexivity.
Qed.

Lemma env_file_other (args : arguments) (env : os_env) (val : string) :
  startswith val "~" = false ->
  env_file_to_str_lambda args env (PStr val)
  = if startswith val "/" then Ok (PStr ("--env-file " ++ val))
    else Ok (PStr ("--env-file " ++ normpath (path_str (absolute env
               (parse_parts [dirname (composefile args); val]))))).
Proof.
  intro H; unfold env_file_to_str_lambda, py_startswith.
  rewrite H; cbn [bind]; destruct (startswith val "/"); reflexivity.
Qed.

(** C5, as the claim states it, fails: an anchored path that is not
    normalized is emitted as it stands, both for a volume source and for an
    env file. *)
Lemma anchored_path_not_normalized :
  volume_dict_pairs_to_str sample_args sample_env (PStr "source", PStr "/a/./b/../c")
  = Ok "source=/a/./b/../c"
  /\ env_file_to_str_lambda sample_args sample_env (PStr "/a/./b/../c")
     = Ok (PStr "--env-file /a/./b/../c")
  /\ normpath "/a/./b/../c" = "/a/c"
  /\ normpath "/a/./b/../c" <> "/a/./b/../c".
Proof. repeat split; try reflexivity; discriminate. Qed.

(** C5, amended.  With an anchored working directory: a path that starts
    with a slash is emitted unchanged; a path that starts with neither a slash
    nor a tilde is parsed below the directory of the manifest, made absolute
    and normalized; a path that starts with a tilde is home-expanded, made
    absolute and normalized, or the run stops where [expanduser] does: with
    [RuntimeError] when no home directory is found, with [ValueError] when
    the user name holds a null character.  In the last two cases the emitted
    path is anchored and a fixed point of [normpath]. *)
Theorem resolved_paths (args : arguments) (env : os_env) (val : string) :
  startswith (getcwd env) "/" = true ->
  (startswith val "/" = true ->
     volume_dict_pairs_to_str args env (PStr "source", PStr val) = Ok ("source=" ++ val)
     /\ env_file_to_str_lambda args env (PStr val) = Ok (PStr ("--env-file " ++ val)))
  /\ (startswith val "/" = false -> startswith val "~" = false ->
      let out :=
        normpath (path_str (absolute env (parse_parts [dirname (composefile args); val]))) in
      volume_dict_pairs_to_str args env (PStr "source", PStr val) = Ok ("source=" ++ out)
      /\ env_file_to_str_lambda args env (PStr val) = Ok (PStr ("--env-file " ++ out))
      /\ startswith out "/" = true /\ normpath out = out)
  /\ (startswith val "~" = true ->
      match expanduser env (parse_parts [val]) with
      | Ok home_path =>
          let out := normpath (path_str (absolute env home_path)) in
          volume_dict_pairs_to_str args env (PStr "source", PStr val) = Ok ("source=" ++ out)
          /\ env_file_to_str_lambda args env (PStr val) = Ok (PStr ("--env-file " ++ out))
          /\ startswith out "/" = true /\ normpath out = out
      | Raise e =>
          volume_dict_pairs_to_str args env (PStr "source", PStr val) = Raise e
          /\ env_file_to_str_lambda args env (PStr val) = Raise e
          /\ (e = RuntimeError \/ e = ValueError)
      | SysExit _ => False
      end).
Proof.
  intro Hcwd; split; [| split].
  - intro H; pose proof (startswith_sep_not_tilde val H) as Ht.
    rewrite (source_other args env val Ht), (env_file_other args env val Ht), H.
    split; reflexivity.
  - intros H Ht out.
    rewrite (source_other args env val Ht), (env_file_other args env val Ht), H.
    repeat split.
    + apply (resolved_path_normal env _ Hcwd (parse_parts_wf _)).
    + apply normpath_idem.
  - intro Ht.
    rewrite (source_tilde args env val Ht), (env_file_tilde args env val Ht).
    destruct (expanduser_cases env (parse_parts [val])) as [[q E] | [E | E]]; rewrite E.
    + pose proof (expanduser_wf env _ _ (parse_parts_wf _) E) as Hwf.
      repeat split.
      * apply (resolved_path_normal env _ Hcwd Hwf).
      * apply normpath_idem.
    + repeat split; left; reflexivity.
    + repeat split; right; reflexivity.
Qed.

(** The two ways in which a path with a tilde stops the run. *)
Remark tilde_failures :
  env_file_to_str_lambda sample_args sample_env (PStr "~ghost/x.env") = Raise RuntimeError
  /\ env_file_to_str_lambda sample_args sample_env (PStr ("~a" ++ String nul "b"))
     = Raise ValueError
  /\ volume_dict_pairs_to_str sample_args sample_env (PStr "source", PStr "~ghost/data")
     = Raise RuntimeError.
Proof. repeat split; reflexivity. Qed.

Lemma resolved_paths_witness :
  startswith (getcwd sample_env) "/" = true
  /\ volume_dict_pairs_to_str sample_args sample_env (PStr "source", PStr "/srv/data")
     = Ok "source=/srv/data"
  /\ volume_dict_pairs_to_str sample_args sample_env (PStr "source", PStr "conf/../x")
     = Ok "source=/proj/x"
  /\ env_file_to_str_lambda sample_args sample_env (PStr "~/a/./b.env")
     = Ok (PStr "--env-file /home/dev/a/b.env").
Proof.
  split; [reflexivity |].
  split; [exact (proj1 (proj1 (resolved_paths sample_args sample_env "/srv/data" eq_refl) eq_refl)) |].
  split.
  - exact (proj1 (proj1 (proj2 (resolved_paths sample_args sample_env "conf/../x" eq_refl))
                        eq_refl eq_refl)).
  - exact (proj1 (proj2 (proj2 (proj2 (resolved_paths sample_args sample_env "~/a/./b.env" eq_refl))
                               eq_refl))).
Defined.

(** C7.  With the manifest in [/proj], the structured volume with keys
    [type], [source], [target] and [read_only], in that order, is rendered as
    one [--mount] token: the pairs in the order of the mapping, the source
    resolved below [/proj], and [read_only] renamed to [readonly]. *)
Theorem volume_mount_rendering (args : arguments) (env : os_env) :
  dirname (composefile args) = "/proj" ->
  volume_to_str_lambda args env
    (PDict [(PStr "type", PStr "bind"); (PStr "source", PStr "./x");
            (PStr "target", PStr "/y"); (PStr "read_only", PBool true)])
  = Ok (PStr "--mount type=bind,source=/proj/x,target=/y,readonly=True").
Proof.
  intro H; unfold volume_to_str_lambda, map_result, volume_dict_pairs_to_str.
  simpl fst; simpl snd; simpl key_is; cbv iota.
  simpl py_startswith; simpl bind; rewrite H; reflexivity.
Qed.

Lemma volume_mount_rendering_witness :
  dirname (composefile sample_args) = "/proj"
  /\ volume_to_str_lambda sample_args sample_env
       (PDict [(PStr "type", PStr "bind"); (PStr "source", PStr "./x");
               (PStr "target", PStr "/y"); (PStr "read_only", PBool true)])
     = Ok (PStr "--mount type=bind,source=/proj/x,target=/y,readonly=True").
Proof.
  split; [reflexivity | exact (volume_mount_rendering sample_args sample_env eq_refl)].
Defined.

(** Only the manifest key [read_only] is renamed; a key spelled [readOnly]
    is rendered like any other key. *)
Remark volume_mount_other_spelling :
  volume_to_str_lambda sample_args sample_env
    (PDict [(PStr "type", PStr "bind"); (PStr "source", PStr "./x");
            (PStr "target", PStr "/y"); (PStr "readOnly", PBool true)])
  = Ok (PStr "--mount type=bind,source=/proj/x,target=/y,readOnly=True").
Proof. reflexivity. Qed.

(** ** Ports, expose and the entrypoint in the command *)

(** C1, as the claim states it, fails: a [ports] entry is rendered as a
    [-p] pair, and no [--expose] flag comes from it. *)
Lemma ports_entry_is_published :
  main_cmd sample_args sample_env (PDict svc_with_port) = Ok cmd_with_port
  /\ In (PStr "-p") cmd_with_port
  /\ ~ In (PStr "--expose") cmd_with_port
  /\ main sample_args sample_env (manifest_of svc_with_port)
     = Ok ("Docker command:" ++ newline
           ++ "telepresence --method container --context staging --new-deployment tele-web"
           ++ " --mount false --env-file telepresence-env-file.env.tmp --docker-run --rm -it"
           ++ " -p 8080:80 nginx").
Proof.
  split; [vm_compute; reflexivity |].
  split; [vm_compute; tauto |].
  split; [| vm_compute; reflexivity].
  vm_compute; intro H.
  repeat (destruct H as [H | H]; [discriminate |]); exact H.
Qed.

(** C1, amended.  Whenever the command is assembled, every entry of [ports]
    is rendered by [port_to_str] and emitted as a [-p] pair, after the labels
    and before the volumes, and the [ports] add nothing else to the command:
    no [--expose] flag comes from them, for the tokens before and after the
    [-p] pairs are the command that the same entry gives without its ports.
    The [--expose] pairs that follow the deployment flag are the entries of
    the [expose] field. *)
Theorem ports_rendered_as_publish (args : arguments) (env : os_env)
        (svc : list (pyval * pyval)) (toks : list pyval) :
  main_cmd args env (PDict svc) = Ok toks -> ports_published args env svc toks.
Proof.
  intro H.
  destruct (main_cmd_shape args env svc toks H)
    as (tokens & stop & svc_ports & env_file_list & volume_list
        & Ht & Hs & Hp & He & Hv & ->).
  exists svc_ports.
  exists (proxy_head args
          ++ pairs "--expose" (field svc "expose")
          ++ proxy_fixed
          ++ (opt_flag "--name" (dict_get svc "container_name")
              ++ entry_flag tokens
              ++ opt_flag "--pid" (dict_get svc "pid")
              ++ stop
              ++ opt_flag "--stop-signal" (dict_get svc "stop_signal")
              ++ opt_flag "--workdir" (dict_get svc "working_dir")
              ++ pairs "--cap-add" (field svc "cap_add")
              ++ pairs "--cap-drop" (field svc "cap_drop")
              ++ pairs "--devices" (field svc "devices")
              ++ pairs "--dns" (field svc "dns")
              ++ pairs "--dns-search" (field svc "dns_search")
              ++ env_file_list
              ++ pairs "-e" (field svc "environment")
              ++ pairs "--add-host" (field svc "extra_hosts"))
          ++ pairs "-l" (field svc "labels"))%list.
  exists (volume_list ++ dict_get svc "image" :: map PStr (tl tokens))%list.
  split; [exact Hp |].
  split; [rewrite <- !app_assoc; reflexivity |].
  split; [eexists; reflexivity |].
  split; [exists volume_list, (map PStr (tl tokens)); split; [exact Hv | reflexivity] |].
  intros svc' Hw.
  pose proof (main_cmd_without_ports_ok args env svc svc' Hw) as K.
  unfold ok_carries in K; rewrite H in K; specialize (K eq_refl).
  destruct (main_cmd args env (PDict svc')) as [toks' | e | m] eqn:H'; try discriminate K.
  clear K; destruct Hw as [Hf Hk].
  assert (E : forall k, existsb (String.eqb k) used_keys = true -> String.eqb k "ports" = false ->
                        dict_get svc' k = dict_get svc k).
  { intros k Hin Hn; apply Hk; [| apply String.eqb_neq; exact Hn].
    apply existsb_exists in Hin as (x & Hx & Hkx); apply String.eqb_eq in Hkx; subst; exact Hx. }
  destruct (main_cmd_shape args env svc' toks' H')
    as (tokens' & stop' & svc_ports' & env_file_list' & volume_list'
        & Ht' & Hs' & Hp' & He' & Hv' & ->).
  rewrite (field_falsy svc' "ports" Hf) in Hp'; inversion Hp'; subst svc_ports'.
  unfold field in *.
  rewrite (E "entrypoint" eq_refl eq_refl) in Ht'.
  rewrite (E "stop_grace_period" eq_refl eq_refl) in Hs'.
  rewrite (E "env_file" eq_refl eq_refl) in He'.
  rewrite (E "volumes" eq_refl eq_refl) in Hv'.
  rewrite (entry_tokens_unique _ _ _ Ht' Ht).
  rewrite Hs in Hs'; inversion Hs'; subst stop'.
  rewrite He in He'; inversion He'; subst env_file_list'.
  rewrite Hv in Hv'; inversion Hv'; subst volume_list'.
  rewrite (E "image" eq_refl eq_refl),
    (E "container_name" eq_refl eq_refl), (E "pid" eq_refl eq_refl),
    (E "stop_signal" eq_refl eq_refl),
    (E "working_dir" eq_refl eq_refl), (E "cap_add" eq_refl eq_refl),
    (E "cap_drop" eq_refl eq_refl), (E "devices" eq_refl eq_refl), (E "dns" eq_refl eq_refl),
    (E "dns_search" eq_refl eq_refl),
    (E "environment" eq_refl eq_refl), (E "expose" eq_refl eq_refl),
    (E "extra_hosts" eq_refl eq_refl), (E "labels" eq_refl eq_refl).
  simpl pairs at 11.
  rewrite <- !app_assoc; reflexivity.
Qed.

Lemma ports_rendered_as_publish_witness :
  main_cmd sample_args sample_env (PDict svc_with_port) = Ok cmd_with_port
  /\ ports_published sample_args sample_env svc_with_port cmd_with_port.
Proof.
  assert (H : main_cmd sample_args sample_env (PDict svc_with_port) = Ok cmd_with_port)
    by (vm_compute; reflexivity).
  split; [exact H | exact (ports_rendered_as_publish _ _ _ _ H)].
Defined.

(** The second [cmd.extend(expose_list)] finds the iterator exhausted: in
    every assembled command the environment pairs are followed at once by
    the extra-host pairs. *)
Lemma expose_list_exhausted (args : arguments) (env : os_env)
      (svc : list (pyval * pyval)) (toks : list pyval) :
  main_cmd args env (PDict svc) = Ok toks ->
  exists (pre post : list pyval),
    toks = (proxy_head args ++ pairs "--expose" (field svc "expose") ++ proxy_fixed
            ++ pre
            ++ pairs "-e" (field svc "environment")
            ++ pairs "--add-host" (field svc "extra_hosts")
            ++ post)%list.
Proof.
  intro H.
  destruct (main_cmd_shape args env svc toks H)
    as (tokens & stop & svc_ports & env_file_list & volume_list & _ & _ & _ & _ & _ & ->).
  exists (opt_flag "--name" (dict_get svc "container_name")
        ++ entry_flag tokens
        ++ opt_flag "--pid" (dict_get svc "pid")
        ++ stop
        ++ opt_flag "--stop-signal" (dict_get svc "stop_signal")
        ++ opt_flag "--workdir" (dict_get svc "working_dir")
        ++ pairs "--cap-add" (field svc "cap_add")
        ++ pairs "--cap-drop" (field svc "cap_drop")
        ++ pairs "--devices" (field svc "devices")
        ++ pairs "--dns" (field svc "dns")
        ++ pairs "--dns-search" (field svc "dns_search")
        ++ env_file_list)%list.
  exists (pairs "-l" (field svc "labels")
        ++ pairs "-p" svc_ports
        ++ volume_list
        ++ [dict_get svc "image"]
        ++ map PStr (tl tokens))%list.
  rewrite <- !app_assoc; reflexivity.
Qed.

(** C6.  The repeated-value groups are specified to hold one [--expose]
    pair per entry of [expose], between the environment variables and the
    extra hosts.  On a service with one entry in each of the three fields the
    script prints the [--expose] pair once, after the deployment flag, and
    nothing between [-e A=1] and [--add-host db:10.0.0.2]. *)
Theorem expose_group_missing :
  main_cmd sample_args sample_env (PDict svc_with_expose)
  = Ok (map PStr ["telepresence"; "--method"; "container"; "--context"; "staging";
                  "--new-deployment"; "tele-web"; "--expose"; "3000"; "--mount"; "false";
                  "--env-file"; "telepresence-env-file.env.tmp"; "--docker-run"; "--rm";
                  "-it"; "-e"; "A=1"; "--add-host"; "db:10.0.0.2"; "nginx"])
  /\ main sample_args sample_env (manifest_of svc_with_expose)
     = Ok ("Docker command:" ++ newline
        ++ "telepresence --method container --context staging --new-deployment tele-web"
        ++ " --expose 3000"
        ++ " --mount false --env-file telepresence-env-file.env.tmp --docker-run --rm -it"
        ++ " -e A=1 --add-host db:10.0.0.2 nginx").
Proof. split; vm_compute; reflexivity. Qed.




(** The tokens of the example: [/bin/sh] goes to [--entrypoint], and
    [-c run.sh] follows the image. *)
Remark sequence_entrypoint_example :
  split_on " " (join " " ["/bin/sh"; "-c"; "run.sh"]) = ["/bin/sh"; "-c"; "run.sh"]
  /\ main sample_args sample_env (manifest_of svc_with_entrypoint)
     = Ok ("Docker command:" ++ newline
           ++ "telepresence --method container --context staging --new-deployment tele-web"
           ++ " --mount false --env-file telepresence-env-file.env.tmp --docker-run --rm -it"
           ++ " --entrypoint /bin/sh --workdir /app nginx -c run.sh").
Proof. split; vm_compute; reflexivity. Qed.

(** ** Failures: a missing image, an entry of the wrong shape *)

Lemma main_ok_inv (args : arguments) (env : os_env) (doc spec : pyval) (out : string) :
  service_entry doc (service args) = Some spec ->
  main args env doc = Ok out ->
  exists cmd finalCmd,
    main_cmd args env spec = Ok cmd /\ str_join " " cmd = Ok finalCmd.
Proof.
  intros He H.
  destruct (String.eqb (context args) EmptyString) eqn:Ec.
  - apply String.eqb_eq in Ec; rewrite (main_no_context args env doc Ec) in H; discriminate.
  - apply String.eqb_neq in Ec; rewrite (main_of_entry args env doc spec Ec He) in H.
    apply bind_ok_inv in H as (cmd & Hcmd & H).
    apply bind_ok_inv in H as (finalCmd & Hjoin & _).
    exists cmd, finalCmd; auto.
Qed.





(** C4.  An entry of [ports] or of [volumes] that is neither a string nor a
    mapping makes its normalizer raise (the [NameError] of [return null]):
    it is neither converted nor skipped, and a run whose service has such an
    entry prints nothing. *)
Theorem unsupported_shape_is_fatal (args : arguments) (env : os_env) (entry : pyval) :
  is_str entry = false ->
  is_dict entry = false ->
  port_to_str entry = Raise NameError
  /\ volume_to_str_lambda args env entry = Raise NameError
  /\ (forall doc svc,
        service_entry doc (service args) = Some (PDict svc) ->
        In entry (field svc "ports") \/ In entry (field svc "volumes") ->
        is_ok (main args env doc) = false).
Proof.
  intros Hs Hd.
  assert (Hp : port_to_str entry = Raise NameError)
    by (destruct entry; try discriminate; reflexivity).
  assert (Hv : volume_to_str_lambda args env entry = Raise NameError)
    by (destruct entry; try discriminate; reflexivity).
  split; [exact Hp |]; split; [exact Hv |].
  intros doc svc He Hin.
  apply is_ok_false_neq; intros out H.
  destruct (main_ok_inv args env doc (PDict svc) out He H) as (cmd & fin & Hc & _).
  destruct (main_cmd_shape args env svc cmd Hc)
    as (tokens & stop & svc_ports & env_file_list & volume_list & _ & _ & Hports & _ & Hvols & _).
  destruct Hin as [Hin | Hin].
  - assert (Hf : is_ok (map_result port_to_str (field svc "ports")) = false)
      by (apply (map_result_fails port_to_str _ entry Hin); rewrite Hp; reflexivity).
    rewrite Hports in Hf; discriminate.
  - assert (Hf : is_ok (map_result (volume_to_str_lambda args env) (field svc "volumes")) = false)
      by (apply (map_result_fails _ _ entry Hin); rewrite Hv; reflexivity).
    rewrite Hvols in Hf; discriminate.
Qed.

Lemma unsupported_shape_is_fatal_witness :
  is_str (PInt 9000) = false
  /\ is_dict (PInt 9000) = false
  /\ port_to_str (PInt 9000) = Raise NameError
  /\ volume_to_str_lambda sample_args sample_env (PInt 9000) = Raise NameError
  /\ is_ok (main sample_args sample_env (manifest_of svc_with_bad_port)) = false.
Proof.
  destruct (unsupported_shape_is_fatal sample_args sample_env (PInt 9000) eq_refl eq_refl)
    as (Hp & Hv & Hmain).
  split; [reflexivity |]; split; [reflexivity |].
  split; [exact Hp |]; split; [exact Hv |].
  apply (Hmain (manifest_of svc_with_bad_port) svc_with_bad_port eq_refl).
  left; right; left; reflexivity.
Defined.

(** The run of the witness ends where [port_to_str] meets the integer. *)
Remark bad_port_run :
  main sample_args sample_env (manifest_of svc_with_bad_port) = Raise NameError.
Proof. vm_compute; reflexivity. Qed.

(** ** An unknown service, and the unused [command] field *)







(** [main_cmd] reads the service through [dict_get] at keys other than
    [command] only. *)
Lemma main_cmd_ignores_command (args : arguments) (env : os_env)
      (svc svc' : list (pyval * pyval)) :
  (forall k, k <> "command" -> dict_get svc k = dict_get svc' k) ->
  main_cmd args env (PDict svc) = main_cmd args env (PDict svc').
Proof.
  intro H.
  assert (E : forall k, String.eqb k "command" = false -> dict_get svc k = dict_get svc' k)
    by (intros k Hk; apply H, String.eqb_neq, Hk).
  unfold main_cmd.
  rewrite (E "entrypoint" eq_refl), (E "image" eq_refl), (E "container_name" eq_refl),
    (E "pid" eq_refl), (E "stop_grace_period" eq_refl), (E "stop_signal" eq_refl),
    (E "working_dir" eq_refl), (E "cap_add" eq_refl), (E "cap_drop" eq_refl),
    (E "devices" eq_refl), (E "dns" eq_refl), (E "dns_search" eq_refl),
    (E "env_file" eq_refl), (E "environment" eq_refl), (E "expose" eq_refl),
    (E "extra_hosts" eq_refl), (E "labels" eq_refl), (E "ports" eq_refl),
    (E "volumes" eq_refl).
  reflexivity.
Qed.

(** C10.  Two manifests whose entries for the requested service agree on
    every field except [command] (its value, or whether it is there at all)
    give the same outcome for the same arguments and surroundings: the same
    printed command, or the same failure. *)
Theorem command_field_unused (args : arguments) (env : os_env) (doc doc' : pyval)
        (svc svc' : list (pyval * pyval)) :
  service_entry doc (service args) = Some (PDict svc) ->
  service_entry doc' (service args) = Some (PDict svc') ->
  (forall k, k <> "command" -> dict_get svc k = dict_get svc' k) ->
  main args env doc = main args env doc'.
Proof.
  intros He He' H.
  destruct (String.eqb (context args) EmptyString) eqn:Ec.
  - apply String.eqb_eq in Ec; rewrite !main_no_context by exact Ec; reflexivity.
  - apply String.eqb_neq in Ec.
    rewrite (main_of_entry args env doc _ Ec He), (main_of_entry args env doc' _ Ec He').
    rewrite (main_cmd_ignores_command args env svc svc' H); reflexivity.
Qed.

Lemma dict_find_cons (k' k : string) (v : pyval) (d : list (pyval * pyval)) :
  dict_find ((PStr k', v) :: d) k = if String.eqb k' k then Some v else dict_find d k.
Proof. reflexivity. Qed.

Lemma command_field_unused_witness :
  main sample_args sample_env (manifest_of svc_plain)
  = main sample_args sample_env (manifest_of svc_with_command).
Proof.
  apply (command_field_unused sample_args sample_env
           (manifest_of svc_plain) (manifest_of svc_with_command)
           svc_plain svc_with_command eq_refl eq_refl).
  intros k Hk; unfold svc_plain, svc_with_command, dict_get.
  rewrite !dict_find_cons.
  apply not_eq_sym in Hk; apply String.eqb_neq in Hk; rewrite Hk; reflexivity.
Defined.

(** Both runs of the witness print the same line. *)
Remark command_field_unused_example :
  main sample_args sample_env (manifest_of svc_with_command)
  = Ok ("Docker command:" ++ newline
        ++ "telepresence --method container --context staging --new-deployment tele-web"
        ++ " --mount false --env-file telepresence-env-file.env.tmp --docker-run --rm -it"
        ++ " --pid host nginx").
Proof. vm_compute; reflexivity. Qed.

(** * Further properties of the script *)

(** ** [convert_to_seconds] *)

Lemma kw_get_absent (d : list (unit_name * Z)) (u : unit_name) :
  ~ In u (map fst d) -> kw_get d u = 0%Z.
Proof.
  unfold kw_get; induction d as [| [k v] d IH]; simpl; intro H; [reflexivity |].
  destruct (unit_name_eqb k u) eqn:E.
  - apply unit_name_eqb_eq in E; exfalso; apply H; left; exact E.
  - apply IH; intro Hin; apply H; right; exact Hin.
Qed.

Lemma kw_total_by_unit (d : list (unit_name * Z)) :
  NoDup (map fst d) ->
  kw_total d
  = (kw_get d seconds * 1 + kw_get d minutes * 60 + kw_get d hours * 3600
     + kw_get d days * 86400 + kw_get d weeks * 604800)%Z.
Proof.
  induction d as [| [k v] d IH]; intro H; [reflexivity |].
  inversion H as [| ? ? Hk Hd]; subst.
  change (kw_total ((k, v) :: d)) with (v * unit_seconds k + kw_total d)%Z.
  rewrite (IH Hd).
  pose proof (kw_get_absent d k Hk) as H0.
  unfold kw_get in *; simpl find.
  destruct k; simpl unit_name_eqb; simpl unit_seconds; cbv iota; simpl snd; lia.
Qed.

Lemma kw_set_keys (d : list (unit_name * Z)) (k : unit_name) (v : Z) (u : unit_name) :
  In u (map fst (kw_set d k v)) <-> In u (map fst d) \/ u = k.
Proof.
  induction d as [| [k' v'] d IH]; simpl.
  - split; [intros [H | []]; auto | intros [[] | H]; auto].
  - destruct (unit_name_eqb k' k) eqn:E; simpl.
    + apply unit_name_eqb_eq in E; subst k'; split; [tauto |].
      intros [[H | H] | H]; auto.
    + rewrite IH; tauto.
Qed.

Lemma kw_set_nodup (d : list (unit_name * Z)) (k : unit_name) (v : Z) :
  NoDup (map fst d) -> NoDup (map fst (kw_set d k v)).
Proof.
  induction d as [| [k' v'] d IH]; simpl; intro H.
  - constructor; [intros [] | constructor].
  - inversion H as [| ? ? Hk Hd]; subst.
    destruct (unit_name_eqb k' k) eqn:E; simpl.
    + constructor; assumption.
    + constructor; [| apply IH; exact Hd].
      rewrite kw_set_keys; intros [Hin | ->]; [exact (Hk Hin) |].
      assert (Ht : unit_name_eqb k k = true) by (apply unit_name_eqb_eq; reflexivity).
      rewrite Ht in E; discriminate.
Qed.

Lemma kw_get_set (d : list (unit_name * Z)) (k : unit_name) (v : Z) (u : unit_name) :
  kw_get (kw_set d k v) u = if unit_name_eqb k u then v else kw_get d u.
Proof.
  unfold kw_get; induction d as [| [k' v'] d IH]; simpl.
  - destruct (unit_name_eqb k u); reflexivity.
  - destruct (unit_name_eqb k' k) eqn:E; simpl.
    + apply unit_name_eqb_eq in E; subst k'.
      destruct (unit_name_eqb k u); reflexivity.
    + destruct (unit_name_eqb k' u) eqn:E'; simpl.
      * apply unit_name_eqb_eq in E'; subst k'.
        destruct (unit_name_eqb k u) eqn:E''; [| reflexivity].
        apply unit_name_eqb_eq in E''; subst k.
        assert (Ht : unit_name_eqb u u = true) by (apply unit_name_eqb_eq; reflexivity).
        rewrite Ht in E; discriminate.
      * exact IH.
Qed.

Lemma kwargs_fold_last (ms : list (string * string)) (d : list (unit_name * Z)) (u : unit_name) :
  kw_get (fold_left (fun d m => kw_set d (UNITS_get (snd m)) (int_of_digits (fst m))) ms d) u
  = fold_left (fun acc m => if unit_name_eqb (UNITS_get (snd m)) u
                            then int_of_digits (fst m) else acc) ms (kw_get d u).
Proof.
  revert d; induction ms as [| m ms IH]; simpl; intro d; [reflexivity |].
  rewrite IH, kw_get_set; reflexivity.
Qed.

Lemma kwargs_fold_nodup (ms : list (string * string)) (d : list (unit_name * Z)) :
  NoDup (map fst d) ->
  NoDup (map fst (fold_left (fun d m => kw_set d (UNITS_get (snd m)) (int_of_digits (fst m)))
                            ms d)).
Proof.
  revert d; induction ms as [| m ms IH]; simpl; intros d H; [exact H |].
  apply IH, kw_set_nodup, H.
Qed.

Lemma duration_total_last_wins (s : string) :
  kw_total (fold_left (fun d m => kw_set d (UNITS_get (snd m)) (int_of_digits (fst m)))
                      (finditer s) [])
  = last_wins_total s.
Proof.
  unfold last_wins_total, last_value.
  rewrite kw_total_by_unit by (apply kwargs_fold_nodup; constructor).
  rewrite !kwargs_fold_last; reflexivity.
Qed.

Lemma convert_to_seconds_last_wins_eq (s : string) :
  convert_to_seconds s
  = if digits_over_limit s then Raise ValueError
    else if ((-999999999 <=? last_wins_total s / 86400)
             && (last_wins_total s / 86400 <=? 999999999))%Z
         then Ok (last_wins_total s) else Raise OverflowError.
Proof.
  unfold convert_to_seconds; rewrite duration_kwargs_fold.
  destruct (digits_over_limit s); [reflexivity |].
  unfold timedelta_total_seconds; simpl bind.
  rewrite duration_total_last_wins; reflexivity.
Qed.

(** X1.  For every text: [ValueError] when some run of digits is longer than
    4300 characters (what [int] refuses); otherwise a unit that occurs in
    several segments counts with its last segment only, and the result is the
    sum, over the five units, of the value of the last segment of that unit,
    or [OverflowError] when that sum is 1000000000 days or more. *)
Theorem convert_to_seconds_last_wins (s : string) :
  convert_to_seconds s
  = if digits_over_limit s then Raise ValueError
    else if ((-999999999 <=? last_wins_total s / 86400)
             && (last_wins_total s / 86400 <=? 999999999))%Z
         then Ok (last_wins_total s) else Raise OverflowError.
Proof. exact (convert_to_seconds_last_wins_eq s). Qed.

Lemma int_of_digits_nonneg (val : string) : (0 <= int_of_digits val)%Z.
Proof.
  unfold int_of_digits.
  assert (H : forall l acc, (0 <= acc)%Z ->
            (0 <= fold_left (fun acc c => acc * 10 + Z.of_nat (nat_of_ascii c - 48))%Z l acc)%Z).
  { induction l as [| c l IH]; simpl; intros acc Ha; [exact Ha | apply IH; lia]. }
  apply H; lia.
Qed.

Lemma last_value_nonneg (u : unit_name) (ms : list (string * string)) :
  (0 <= last_value u ms)%Z.
Proof.
  unfold last_value.
  assert (H : forall l acc, (0 <= acc)%Z ->
            (0 <= fold_left (fun acc m => if unit_name_eqb (UNITS_get (snd m)) u
                                          then int_of_digits (fst m) else acc) l acc)%Z).
  { induction l as [| m l IH]; simpl; intros acc Ha; [exact Ha |].
    apply IH; destruct (unit_name_eqb _ u); [apply int_of_digits_nonneg | exact Ha]. }
  apply H; lia.
Qed.

(** X2.  [convert_to_seconds] has three outcomes: a number of seconds that
    is at least zero and below 1000000000 days; [ValueError], exactly when
    some run of digits is longer than 4300 characters; [OverflowError]. *)
Theorem convert_to_seconds_range (s : string) :
  (digits_over_limit s = true <-> convert_to_seconds s = Raise ValueError)
  /\ ((exists n, convert_to_seconds s = Ok n /\ (0 <= n < 86400000000000)%Z)
      \/ convert_to_seconds s = Raise ValueError
      \/ convert_to_seconds s = Raise OverflowError).
Proof.
  rewrite convert_to_seconds_last_wins_eq.
  destruct (digits_over_limit s); [split; [tauto | right; left; reflexivity] |].
  destruct (((-999999999 <=? last_wins_total s / 86400)
             && (last_wins_total s / 86400 <=? 999999999))%Z) eqn:E;
    (split; [split; discriminate |]); [left | right; right; reflexivity].
  exists (last_wins_total s); split; [reflexivity |].
  apply andb_true_iff in E as [_ E]; apply Z.leb_le in E.
  assert (H0 : (0 <= last_wins_total s)%Z).
  { unfold last_wins_total.
    pose proof (last_value_nonneg seconds (finditer s)).
    pose proof (last_value_nonneg minutes (finditer s)).
    pose proof (last_value_nonneg hours (finditer s)).
    pose proof (last_value_nonneg days (finditer s)).
    pose proof (last_value_nonneg weeks (finditer s)).
    cbv zeta; lia. }
  split; [exact H0 |].
  pose proof (Z.div_mod (last_wins_total s) 86400 ltac:(lia)) as Hd.
  pose proof (Z.mod_pos_bound (last_wins_total s) 86400 ltac:(lia)) as Hm.
  lia.
Qed.

Lemma finditer_no_digit (s : string) :
  has_digit s = false -> finditer_from s EmptyString = [].
Proof.
  induction s as [| c s IH]; simpl; intro H; [reflexivity |].
  apply orb_false_iff in H as [Hc Hs]; rewrite Hc; exact (IH Hs).
Qed.

(** X3.  A text without any decimal digit (the empty text among them) has no
    segment, and the result is zero. *)
Theorem convert_to_seconds_no_digit (s : string) :
  has_digit s = false -> convert_to_seconds s = Ok 0%Z.
Proof.
  intro H; unfold convert_to_seconds, duration_kwargs, finditer.
  rewrite (finditer_no_digit s H); reflexivity.
Qed.

Lemma convert_to_seconds_no_digit_witness :
  has_digit "soon, in a while" = false /\ convert_to_seconds "soon, in a while" = Ok 0%Z.
Proof.
  split; [reflexivity | exact (convert_to_seconds_no_digit "soon, in a while" eq_refl)].
Defined.

Lemma lower_digit (c : ascii) : is_digit c = true -> lower c = c.
Proof.
  destruct c as [[] [] [] [] [] [] [] []]; intro H; try discriminate H; reflexivity.
Qed.

Lemma is_digit_lower (c : ascii) : is_digit (lower c) = is_digit c.
Proof. destruct c as [[] [] [] [] [] [] [] []]; reflexivity. Qed.

Lemma is_unit_char_lower (c : ascii) : is_unit_char (lower c) = is_unit_char c.
Proof. destruct c as [[] [] [] [] [] [] [] []]; reflexivity. Qed.

Lemma lower_lower (c : ascii) : lower (lower c) = lower c.
Proof. destruct c as [[] [] [] [] [] [] [] []]; reflexivity. Qed.

Lemma UNITS_get_lower (unit : string) : UNITS_get (lower_string unit) = UNITS_get unit.
Proof.
  destruct unit as [| c [| c' r]]; simpl; [reflexivity | | reflexivity].
  rewrite lower_lower; reflexivity.
Qed.

Lemma finditer_from_lower (s digits : string) :
  finditer_from (lower_string s) digits
  = map (fun m => (fst m, lower_string (snd m))) (finditer_from s digits).
Proof.
  revert digits; induction s as [| c s IH]; intro digits; simpl.
  - destruct (String.eqb digits EmptyString); reflexivity.
  - rewrite is_digit_lower, is_unit_char_lower.
    destruct (is_digit c) eqn:Ed.
    + rewrite (lower_digit c Ed); apply IH.
    + destruct (String.eqb digits EmptyString); [apply IH |].
      destruct (is_unit_char c); simpl; rewrite IH; reflexivity.
Qed.

Lemma kwargs_fold_lower (ms : list (string * string)) (d : list (unit_name * Z)) :
  fold_left (fun d m => kw_set d (UNITS_get (snd m)) (int_of_digits (fst m)))
            (map (fun m => (fst m, lower_string (snd m))) ms) d
  = fold_left (fun d m => kw_set d (UNITS_get (snd m)) (int_of_digits (fst m))) ms d.
Proof.
  revert d; induction ms as [| m ms IH]; intro d; simpl; [reflexivity |].
  rewrite UNITS_get_lower; apply IH.
Qed.

Lemma over_limit_lower (ms : list (string * string)) :
  existsb (fun m => over_limit (fst m)) (map (fun m => (fst m, lower_string (snd m))) ms)
  = existsb (fun m => over_limit (fst m)) ms.
Proof. induction ms as [| m ms IH]; simpl; [reflexivity | rewrite IH; reflexivity]. Qed.

(** X4.  The unit letters are read without regard to case: turning the text
    to lower case leaves the result as it is. *)
Theorem convert_to_seconds_ignores_case (s : string) :
  convert_to_seconds (lower_string s) = convert_to_seconds s.
Proof.
  unfold convert_to_seconds; rewrite !duration_kwargs_fold.
  unfold digits_over_limit, finditer.
  rewrite finditer_from_lower, kwargs_fold_lower, over_limit_lower; reflexivity.
Qed.

(** X5.  When no run of digits is longer than 4300 characters, no unit
    occurs in two segments and the total is below 1000000000 days, the result
    is the sum of all segments, each integer multiplied by the seconds of its
    unit (a segment without a unit letter counts as seconds). *)
Theorem convert_to_seconds_sums_distinct (s : string) :
  digits_over_limit s = false ->
  NoDup (map (fun m => UNITS_get (snd m)) (finditer s)) ->
  (-999999999 <= sum_of_segments s / 86400 <= 999999999)%Z ->
  convert_to_seconds s = Ok (sum_of_segments s).
Proof. exact (convert_to_seconds_distinct_units s). Qed.

Lemma convert_to_seconds_sums_distinct_witness :
  finditer "1w2d3h4m5" = [("1", "w"); ("2", "d"); ("3", "h"); ("4", "m"); ("5", "")]
  /\ sum_of_segments "1w2d3h4m5" = 788645%Z
  /\ convert_to_seconds "1w2d3h4m5" = Ok 788645%Z.
Proof.
  split; [reflexivity |]; split; [reflexivity |].
  apply (convert_to_seconds_sums_distinct "1w2d3h4m5").
  - vm_compute; reflexivity.
  - vm_compute; repeat constructor; simpl; intuition discriminate.
  - vm_compute; split; discriminate.
Defined.

(** ** [port_to_str] and the volume and env-file normalizers *)

(** X6.  Whenever [port_to_str] returns, it returns a string: the entry
    itself when that is a string, and otherwise, for a mapping that has the
    three keys [published], [target] and [protocol] with a string under
    [protocol], the text [published:target/protocol]. *)
Theorem port_to_str_result (port v : pyval) :
  port_to_str port = Ok v ->
  exists s, v = PStr s
    /\ (port = PStr s
        \/ exists d published target protocol,
             port = PDict d
             /\ dict_find d "published" = Some published
             /\ dict_find d "target" = Some target
             /\ dict_find d "protocol" = Some (PStr protocol)
             /\ s = py_str published ++ ":" ++ py_str target ++ "/" ++ protocol).
Proof.
  destruct port as [| b | z | nz t | s | l | d]; simpl; intro H; try discriminate.
  - inversion H; subst; exists s; auto.
  - unfold dict_getitem in H.
    destruct (dict_find d "published") as [published |] eqn:Ep; [| discriminate].
    destruct (dict_find d "target") as [target |] eqn:Et; [| discriminate].
    destruct (dict_find d "protocol") as [protocol |] eqn:Epr; [| discriminate].
    simpl in H; destruct protocol as [| | | | proto | |]; try discriminate.
    simpl in H; inversion H; subst.
    eexists; split; [reflexivity |].
    right; exists d, published, target, proto.
    repeat (split; [first [reflexivity | assumption] |]).
    repeat (rewrite append_assoc; simpl); reflexivity.
Qed.

Lemma port_to_str_result_witness :
  port_to_str (PDict [(PStr "published", PInt 8080); (PStr "target", PInt 80);
                      (PStr "protocol", PStr "tcp")]) = Ok (PStr "8080:80/tcp")
  /\ exists s, PStr "8080:80/tcp" = PStr s.
Proof.
  assert (H : port_to_str (PDict [(PStr "published", PInt 8080); (PStr "target", PInt 80);
                                  (PStr "protocol", PStr "tcp")]) = Ok (PStr "8080:80/tcp"))
    by reflexivity.
  split; [exact H |].
  destruct (port_to_str_result _ _ H) as (s & Hs & _); exists s; exact Hs.
Defined.





Lemma env_file_token (args : arguments) (env : os_env) (entry t : pyval) :
  env_file_to_str_lambda args env entry = Ok t ->
  exists p, t = PStr ("--env-file " ++ p).
Proof.
  unfold env_file_to_str_lambda; intro H.
  apply bind_ok_inv in H as (tilde & _ & H).
  destruct tilde.
  - apply bind_ok_inv in H as (path & _ & H); inversion H; subst.
    eexists; reflexivity.
  - apply bind_ok_inv in H as (anchored & _ & H).
    destruct anchored; cbn [Bool.eqb] in H; cbv iota in H.
    + apply bind_ok_inv in H as (s & Hs & H); inversion H; subst.
      unfold str_add in Hs; apply bind_ok_inv in Hs as (x & _ & Hs); inversion Hs; subst.
      eexists; reflexivity.
    + inversion H; subst; eexists; reflexivity.
Qed.

Lemma volume_token (args : arguments) (env : os_env) (entry t : pyval) :
  volume_to_str_lambda args env entry = Ok t ->
  exists p, t = PStr ("-v " ++ p) \/ t = PStr ("--mount " ++ p).
Proof.
  destruct entry; unfold volume_to_str_lambda; intro H; try discriminate.
  - inversion H; subst; eexists; left; reflexivity.
  - apply bind_ok_inv in H as (pairs & _ & H); inversion H; subst.
    eexists; right; reflexivity.
Qed.

Lemma map_result_length {A B : Type} (f : A -> result B) (l : list A) (ys : list B) :
  map_result f l = Ok ys -> List.length ys = List.length l.
Proof.
  intro H; apply map_result_ok_inv in H.
  induction H; simpl; [reflexivity | rewrite IHForall2; reflexivity].
Qed.

Lemma map_result_pointwise {A B : Type} (f : A -> result B) (P : B -> Prop)
      (l : list A) (ys : list B) :
  (forall x y, f x = Ok y -> P y) -> map_result f l = Ok ys ->
  Forall2 (fun x y => f x = Ok y /\ P y) l ys.
Proof.
  intros HP H; apply map_result_ok_inv in H.
  induction H; constructor; eauto.
Qed.

(** X8.  When the env files and the volumes are all normalized, each entry
    has given exactly one token, in the order of the entries: the token at
    each place is the rendering of the entry at that place; for an env file
    it is the single token [--env-file PATH] (flag and path in one token),
    for a volume a token that starts with [-v ] or with [--mount ]. *)
Theorem one_token_per_entry (args : arguments) (env : os_env)
        (env_files volumes env_file_list volume_list : list pyval) :
  map_result (env_file_to_str_lambda args env) env_files = Ok env_file_list ->
  map_result (volume_to_str_lambda args env) volumes = Ok volume_list ->
  List.length env_file_list = List.length env_files
  /\ Forall2 (fun entry t => env_file_to_str_lambda args env entry = Ok t
                            /\ exists p, t = PStr ("--env-file " ++ p))
             env_files env_file_list
  /\ List.length volume_list = List.length volumes
  /\ Forall2 (fun entry t => volume_to_str_lambda args env entry = Ok t
                            /\ exists p, t = PStr ("-v " ++ p) \/ t = PStr ("--mount " ++ p))
             volumes volume_list.
Proof.
  intros He Hv; repeat split.
  - exact (map_result_length _ _ _ He).
  - exact (map_result_pointwise _ _ _ _ (env_file_token args env) He).
  - exact (map_result_length _ _ _ Hv).
  - exact (map_result_pointwise _ _ _ _ (volume_token args env) Hv).
Qed.

Lemma one_token_per_entry_witness :
  map_result (env_file_to_str_lambda sample_args sample_env) [PStr "a.env"; PStr "/etc/b.env"]
  = Ok [PStr "--env-file /proj/a.env"; PStr "--env-file /etc/b.env"]
  /\ map_result (volume_to_str_lambda sample_args sample_env) [PStr "./data:/data"]
     = Ok [PStr "-v ./data:/data"]
  /\ List.length [PStr "--env-file /proj/a.env"; PStr "--env-file /etc/b.env"] = 2.
Proof.
  assert (He : map_result (env_file_to_str_lambda sample_args sample_env)
                 [PStr "a.env"; PStr "/etc/b.env"]
               = Ok [PStr "--env-file /proj/a.env"; PStr "--env-file /etc/b.env"])
    by (vm_compute; reflexivity).
  assert (Hv : map_result (volume_to_str_lambda sample_args sample_env) [PStr "./data:/data"]
               = Ok [PStr "-v ./data:/data"]) by (vm_compute; reflexivity).
  split; [exact He |]; split; [exact Hv |].
  exact (proj1 (one_token_per_entry sample_args sample_env _ _ _ _ He Hv)).
Defined.

(** ** [main] *)

Lemma dict_find_of_present (d : list (pyval * pyval)) (k : string) :
  existsb (key_is k) (map fst d) = true -> exists v, dict_find d k = Some v.
Proof.
  induction d as [| [k' v'] d IH]; simpl; intro H; [discriminate |].
  destruct (key_is k k'); [eauto | exact (IH H)].
Qed.

Lemma str_join_ok_inv (d : string) (l : list pyval) (s : string) :
  str_join d l = Ok s -> exists ss, l = map PStr ss /\ s = join d ss.
Proof.
  unfold str_join; intro H; apply bind_ok_inv in H as (ss & Hss & H).
  inversion H; subst; exists ss; split; [| reflexivity].
  apply map_result_ok_inv in Hss.
  induction Hss as [| x y l ss Hxy _ IH]; [reflexivity |].
  destruct x; try discriminate; inversion Hxy; subst; simpl; rewrite IH; reflexivity.
Qed.

(** What a run that prints has gone through. *)
Lemma main_prints_parts (args : arguments) (env : os_env) (doc : pyval) (out : string) :
  main args env doc = Ok out ->
  context args <> EmptyString
  /\ exists svc ss,
       service_entry doc (service args) = Some (PDict svc)
       /\ main_cmd args env (PDict svc) = Ok (map PStr ss)
       /\ out = "Docker command:" ++ newline ++ join " " ss.
Proof.
  intro H.
  destruct (String.eqb (context args) EmptyString) eqn:Ec.
  { apply String.eqb_eq in Ec; rewrite (main_no_context args env doc Ec) in H; discriminate. }
  apply String.eqb_neq in Ec; split; [exact Ec |].
  assert (He : exists spec, service_entry doc (service args) = Some spec).
  { unfold main in H; simpl truthy in H.
    apply String.eqb_neq in Ec; rewrite Ec in H; simpl negb in H; cbv iota in H.
    apply bind_ok_inv in H as (services & Hs & H).
    apply bind_ok_inv in H as (present & Hp & H).
    destruct present; simpl negb in H; cbv iota in H.
    - apply bind_ok_inv in H as (spec & Hspec & _).
      destruct doc as [| | | | | | top]; try discriminate.
      unfold py_getitem, dict_getitem in Hs.
      destruct (dict_find top "services") as [v |] eqn:Et; [| discriminate].
      inversion Hs; subst v.
      destruct services as [| | | | | | sv]; try discriminate.
      unfold py_getitem, dict_getitem in Hspec.
      destruct (dict_find sv (service args)) as [e |] eqn:Ee; [| discriminate].
      exists e; unfold service_entry; rewrite Et; exact Ee.
    - apply bind_ok_inv in H as (keys & _ & H); discriminate. }
  destruct He as (spec & He).
  rewrite (main_of_entry args env doc spec Ec He) in H.
  apply bind_ok_inv in H as (cmd & Hcmd & H).
  apply bind_ok_inv in H as (finalCmd & Hjoin & H).
  inversion H; subst out.
  destruct (str_join_ok_inv _ _ _ Hjoin) as (ss & -> & ->).
  destruct spec as [| | | | | | svc]; try discriminate.
  exists svc, ss; auto.
Qed.

(** X9.  A run prints only when a context is given and the manifest is a
    mapping whose [services] is a mapping that holds the requested service as
    a mapping; the tokens of the command are then all strings, and the text
    printed is [Docker command:], a line break and the tokens joined by
    single spaces. *)
Theorem main_prints_only_if (args : arguments) (env : os_env) (doc : pyval) (out : string) :
  main args env doc = Ok out ->
  context args <> EmptyString
  /\ exists svc ss,
       service_entry doc (service args) = Some (PDict svc)
       /\ main_cmd args env (PDict svc) = Ok (map PStr ss)
       /\ out = "Docker command:" ++ newline ++ join " " ss.
Proof. exact (main_prints_parts args env doc out). Qed.

Lemma main_prints_only_if_witness :
  main sample_args sample_env (manifest_of svc_plain)
  = Ok ("Docker command:" ++ newline
        ++ "telepresence --method container --context staging --new-deployment tele-web"
        ++ " --mount false --env-file telepresence-env-file.env.tmp --docker-run --rm -it"
        ++ " --pid host nginx")
  /\ context sample_args <> EmptyString.
Proof.
  assert (H : main sample_args sample_env (manifest_of svc_plain)
              = Ok ("Docker command:" ++ newline
                    ++ "telepresence --method container --context staging --new-deployment tele-web"
                    ++ " --mount false --env-file telepresence-env-file.env.tmp --docker-run --rm -it"
                    ++ " --pid host nginx")) by (vm_compute; reflexivity).
  split; [exact H | exact (proj1 (main_prints_only_if _ _ _ _ H))].
Defined.

Lemma in_pairs (flag : string) (items : list pyval) (x : pyval) :
  In x items -> In x (pairs flag items).
Proof.
  unfold pairs; induction items as [| a l IH]; simpl; intro H; [contradiction |].
  destruct H as [-> | H]; [right; left; reflexivity | right; right; exact (IH H)].
Qed.

Lemma in_opt_flag (flag : string) (v : pyval) :
  truthy v = true -> In v (opt_flag flag v).
Proof. unfold opt_flag; intros ->; right; left; reflexivity. Qed.

Lemma in_map_PStr (x : pyval) (ss : list string) : In x (map PStr ss) -> is_str x = true.
Proof. intro H; apply in_map_iff in H as (s & <- & _); reflexivity. Qed.

(** X10.  A run that prints has found a string wherever it puts a value of
    the manifest into the command as it is: the image, each of
    [container_name], [pid], [stop_signal] and [working_dir] that is set, and
    every item of [cap_add], [cap_drop], [devices], [dns], [dns_search],
    [environment], [expose], [extra_hosts] and [labels].  A number, boolean,
    null or nested value in one of these places stops the run (at the join)
    instead of being printed. *)
Theorem printed_values_are_strings (args : arguments) (env : os_env) (doc : pyval)
        (svc : list (pyval * pyval)) (out : string) :
  main args env doc = Ok out ->
  service_entry doc (service args) = Some (PDict svc) ->
  is_str (dict_get svc "image") = true
  /\ (forall k, In k scalar_fields -> truthy (dict_get svc k) = true ->
                is_str (dict_get svc k) = true)
  /\ (forall k x, In k plain_fields -> In x (field svc k) -> is_str x = true).
Proof.
  intros H He.
  destruct (main_prints_parts args env doc out H) as (_ & svc' & ss & He' & Hcmd & _).
  rewrite He in He'; inversion He'; subst svc'; clear He'.
  destruct (main_cmd_shape args env svc _ Hcmd)
    as (tokens & stop & svc_ports & env_file_list & volume_list & _ & _ & _ & _ & _ & Heq).
  assert (Hall : forall x, In x (map PStr ss) -> is_str x = true) by (intro x; apply in_map_PStr).
  rewrite Heq in Hall; clear Heq Hcmd.
  repeat split.
  - apply Hall; rewrite !in_app_iff; simpl; tauto.
  - intros k Hk Ht; apply Hall.
    pose proof (in_opt_flag "--name" _ Ht) as H1.
    pose proof (in_opt_flag "--pid" _ Ht) as H2.
    pose proof (in_opt_flag "--stop-signal" _ Ht) as H3.
    pose proof (in_opt_flag "--workdir" _ Ht) as H4.
    rewrite !in_app_iff.
    destruct Hk as [<- | [<- | [<- | [<- | []]]]]; tauto.
  - intros k x Hk Hx; apply Hall.
    pose proof (fun flag => in_pairs flag _ x Hx) as Hp.
    pose proof (Hp "--cap-add") as H1. pose proof (Hp "--cap-drop") as H2.
    pose proof (Hp "--devices") as H3. pose proof (Hp "--dns") as H4.
    pose proof (Hp "--dns-search") as H5. pose proof (Hp "-e") as H6.
    pose proof (Hp "--expose") as H7. pose proof (Hp "--add-host") as H8.
    pose proof (Hp "-l") as H9. clear Hp.
    rewrite !in_app_iff.
    destruct Hk as [<- | [<- | [<- | [<- | [<- | [<- | [<- | [<- | [<- | []]]]]]]]]]; tauto.
Qed.

Lemma printed_values_are_strings_witness :
  main sample_args sample_env (manifest_of svc_with_expose)
  = Ok ("Docker command:" ++ newline
        ++ "telepresence --method container --context staging --new-deployment tele-web"
        ++ " --expose 3000"
        ++ " --mount false --env-file telepresence-env-file.env.tmp --docker-run --rm -it"
        ++ " -e A=1 --add-host db:10.0.0.2 nginx")
  /\ is_str (dict_get svc_with_expose "image") = true.
Proof.
  assert (H : main sample_args sample_env (manifest_of svc_with_expose)
  = Ok ("Docker command:" ++ newline
        ++ "telepresence --method container --context staging --new-deployment tele-web"
        ++ " --expose 3000"
        ++ " --mount false --env-file telepresence-env-file.env.tmp --docker-run --rm -it"
        ++ " -e A=1 --add-host db:10.0.0.2 nginx")) by (vm_compute; reflexivity).
  split; [exact H |].
  exact (proj1 (printed_values_are_strings sample_args sample_env
                  (manifest_of svc_with_expose) svc_with_expose _ H eq_refl)).
Defined.

(** X11.  Whenever the command is assembled, its tokens are, in this order:
    the program, method, context and deployment flag; the [--expose] pairs;
    the fixed flags; the optional [--name], [--entrypoint], [--pid],
    [--stop-timeout], [--stop-signal] and [--workdir]; the pairs of
    [--cap-add], [--cap-drop], [--devices], [--dns] and [--dns-search]; the
    env-file tokens; the pairs of [-e], [--add-host], [-l] and [-p]; the
    volume tokens; the image; the tokens of the entrypoint after the first. *)
Theorem command_token_order (args : arguments) (env : os_env) (svc : list (pyval * pyval))
        (toks : list pyval) :
  main_cmd args env (PDict svc) = Ok toks ->
  exists (tokens : list string) (stop svc_ports env_file_list volume_list : list pyval),
    (match dict_get svc "entrypoint" with
     | PList l => exists joined, str_join " " l = Ok joined /\ tokens = entrypoint_tokens joined
     | PStr s => tokens = entrypoint_tokens s
     | _ => tokens = []
     end)
    /\ stop_flag (dict_get svc "stop_grace_period") = Ok stop
    /\ map_result port_to_str (field svc "ports") = Ok svc_ports
    /\ map_result (env_file_to_str_lambda args env) (field svc "env_file") = Ok env_file_list
    /\ map_result (volume_to_str_lambda args env) (field svc "volumes") = Ok volume_list
    /\ toks =
       (proxy_head args
        ++ pairs "--expose" (field svc "expose")
        ++ proxy_fixed
        ++ opt_flag "--name" (dict_get svc "container_name")
        ++ entry_flag tokens
        ++ opt_flag "--pid" (dict_get svc "pid")
        ++ stop
        ++ opt_flag "--stop-signal" (dict_get svc "stop_signal")
        ++ opt_flag "--workdir" (dict_get svc "working_dir")
        ++ pairs "--cap-add" (field svc "cap_add")
        ++ pairs "--cap-drop" (field svc "cap_drop")
        ++ pairs "--devices" (field svc "devices")
        ++ pairs "--dns" (field svc "dns")
        ++ pairs "--dns-search" (field svc "dns_search")
        ++ env_file_list
        ++ pairs "-e" (field svc "environment")
        ++ pairs "--add-host" (field svc "extra_hosts")
        ++ pairs "-l" (field svc "labels")
        ++ pairs "-p" svc_ports
        ++ volume_list
        ++ [dict_get svc "image"]
        ++ map PStr (tl tokens))%list.
Proof. exact (main_cmd_shape args env svc toks). Qed.

Lemma command_token_order_witness :
  main_cmd sample_args sample_env (PDict svc_with_entrypoint) = Ok cmd_with_entrypoint
  /\ exists rest, cmd_with_entrypoint = (proxy_head sample_args ++ rest)%list.
Proof.
  assert (H : main_cmd sample_args sample_env (PDict svc_with_entrypoint) = Ok cmd_with_entrypoint)
    by (vm_compute; reflexivity).
  split; [exact H |].
  destruct (command_token_order _ _ _ _ H) as (t & s & p & e & v & _ & _ & _ & _ & _ & Heq).
  eexists; exact Heq.
Defined.

Lemma falsy_entrypoint (raw : pyval) :
  truthy raw = false ->
  exists svc_entrypoint,
    match raw with
    | PList l => s <- str_join " " l ;; Ok (PStr s)
    | _ => Ok raw
    end = Ok svc_entrypoint
    /\ (if truthy svc_entrypoint then
          match svc_entrypoint with
          | PStr s => Ok (map PStr (split_on " " s))
          | _ => Raise AttributeError
          end
        else Ok []) = Ok [].
Proof.
  destruct raw as [| b | z | nz t | s | l | d]; simpl; intro H.
  1-5, 7: eexists; split; [reflexivity |]; simpl; rewrite ?H; reflexivity.
  destruct l; [| discriminate].
  exists (PStr EmptyString); split; reflexivity.
Qed.

(** X12.  Fields that are absent, null or otherwise falsy (empty text, empty
    list, empty mapping, zero, false) add nothing: when each of the eighteen
    fields besides [image] is so, however many other keys the entry has, the
    command is the program, method, context and deployment flag, the fixed
    flags, and the image. *)
Theorem falsy_fields_add_nothing (args : arguments) (env : os_env)
        (svc : list (pyval * pyval)) :
  (forall k, In k used_keys -> k <> "image" -> truthy (dict_get svc k) = false) ->
  main_cmd args env (PDict svc)
  = Ok (proxy_head args ++ proxy_fixed ++ [dict_get svc "image"])%list.
Proof.
  intro H.
  assert (F : forall k, existsb (String.eqb k) used_keys = true ->
                        String.eqb k "image" = false -> truthy (dict_get svc k) = false).
  { intros k Hk Hi; apply H; [| apply String.eqb_neq; exact Hi].
    apply existsb_exists in Hk as (x & Hx & Hkx); apply String.eqb_eq in Hkx; subst; exact Hx. }
  destruct (falsy_entrypoint _ (F "entrypoint" eq_refl eq_refl)) as (svc_entrypoint & He1 & He2).
  unfold main_cmd; rewrite He1, bind_Ok, He2, bind_Ok.
  rewrite (iter_map_falsy _ _ (F "ports" eq_refl eq_refl)), bind_Ok.
  rewrite (flag_pairs_falsy _ _ (F "cap_add" eq_refl eq_refl)), bind_Ok,
    (flag_pairs_falsy _ _ (F "cap_drop" eq_refl eq_refl)), bind_Ok,
    (flag_pairs_falsy _ _ (F "devices" eq_refl eq_refl)), bind_Ok,
    (flag_pairs_falsy _ _ (F "dns" eq_refl eq_refl)), bind_Ok,
    (flag_pairs_falsy _ _ (F "dns_search" eq_refl eq_refl)), bind_Ok,
    (flag_pairs_falsy _ _ (F "environment" eq_refl eq_refl)), bind_Ok,
    (flag_pairs_falsy _ _ (F "expose" eq_refl eq_refl)), bind_Ok,
    (flag_pairs_falsy _ _ (F "extra_hosts" eq_refl eq_refl)), bind_Ok,
    (flag_pairs_falsy _ _ (F "labels" eq_refl eq_refl)), bind_Ok,
    flag_pairs_nil, bind_Ok.
  rewrite (iter_map_falsy _ _ (F "env_file" eq_refl eq_refl)), bind_Ok,
    (iter_map_falsy _ _ (F "volumes" eq_refl eq_refl)), bind_Ok.
  rewrite (F "container_name" eq_refl eq_refl), (F "pid" eq_refl eq_refl),
    (F "stop_grace_period" eq_refl eq_refl), (F "stop_signal" eq_refl eq_refl),
    (F "working_dir" eq_refl eq_refl).
  unfold proxy_head, proxy_fixed; destruct (swap args); reflexivity.
Qed.

Lemma falsy_fields_add_nothing_witness :
  main_cmd sample_args sample_env
    (PDict [(PStr "image", PStr "nginx"); (PStr "build", PStr "."); (PStr "dns", PList []);
            (PStr "restart", PStr "always")])
  = Ok (map PStr ["telepresence"; "--method"; "container"; "--context"; "staging";
                  "--new-deployment"; "tele-web"; "--mount"; "false"; "--env-file";
                  "telepresence-env-file.env.tmp"; "--docker-run"; "--rm"; "-it"; "nginx"]).
Proof.
  apply (falsy_fields_add_nothing sample_args sample_env
           [(PStr "image", PStr "nginx"); (PStr "build", PStr "."); (PStr "dns", PList []);
            (PStr "restart", PStr "always")]).
  intros k Hk Hi; unfold used_keys in Hk; simpl in Hk.
  repeat (destruct Hk as [<- | Hk];
          [first [reflexivity | exfalso; apply Hi; reflexivity] |]).
  contradiction.
Defined.

Lemma map_result_ext {A B : Type} (f g : A -> result B) (l : list A) :
  (forall x, f x = g x) -> map_result f l = map_result g l.
Proof.
  intro H; induction l as [| x l IH]; simpl; [reflexivity | rewrite H, IH; reflexivity].
Qed.

Lemma iter_map_ext {B : Type} (f g : pyval -> result B) (v : pyval) :
  (forall x, f x = g x) ->
  (items <- py_iter v ;; map_result f items) = (items <- py_iter v ;; map_result g items).
Proof.
  intro H; destruct (py_iter v); simpl; [apply map_result_ext, H | reflexivity | reflexivity].
Qed.

Lemma env_file_same_manifest (args args' : arguments) (env : os_env) (x : pyval) :
  composefile args = composefile args' ->
  env_file_to_str_lambda args env x = env_file_to_str_lambda args' env x.
Proof. unfold env_file_to_str_lambda; intros ->; reflexivity. Qed.

Lemma volume_same_manifest (args args' : arguments) (env : os_env) (x : pyval) :
  composefile args = composefile args' ->
  volume_to_str_lambda args env x = volume_to_str_lambda args' env x.
Proof.
  intro H; unfold volume_to_str_lambda; destruct x; try reflexivity.
  rewrite (map_result_ext (volume_dict_pairs_to_str args env)
             (volume_dict_pairs_to_str args' env)); [reflexivity |].
  intro kv; unfold volume_dict_pairs_to_str; rewrite H; reflexivity.
Qed.

Lemma same_kind_bind {A B C : Type} (X : result A) (k1 : A -> result B) (k2 : A -> result C) :
  (forall a, same_kind (k1 a) (k2 a)) -> same_kind (bind X k1) (bind X k2).
Proof. intro H; destruct X; simpl; [apply H | reflexivity | reflexivity]. Qed.

Lemma same_kind_bind_eq {A B C : Type} (X Y : result A)
      (k1 : A -> result B) (k2 : A -> result C) :
  X = Y -> (forall a, same_kind (k1 a) (k2 a)) -> same_kind (bind X k1) (bind Y k2).
Proof. intros <-; apply same_kind_bind. Qed.

Lemma same_kind_bind2 {A B B' C C' : Type} (X : result A)
      (j1 : A -> result B) (j2 : A -> result B')
      (k1 : B -> result C) (k2 : B' -> result C') :
  (forall a, same_kind (bind (j1 a) k1) (bind (j2 a) k2)) ->
  same_kind (bind (bind X j1) k1) (bind (bind X j2) k2).
Proof. intro H; destruct X; simpl; [apply H | reflexivity | reflexivity]. Qed.

(** Whether the command is assembled, and how the assembly fails when it
    does, depends on the arguments through the path of the manifest only. *)
Lemma main_cmd_same_kind (args args' : arguments) (env : os_env) (spec : pyval) :
  composefile args = composefile args' ->
  same_kind (main_cmd args env spec) (main_cmd args' env spec).
Proof.
  intro Hf.
  destruct spec as [| | | | | | svc]; try exact eq_refl.
  unfold main_cmd.
  do 13 (apply same_kind_bind; intro).
  apply same_kind_bind_eq;
    [apply iter_map_ext; intro x; apply env_file_same_manifest; exact Hf | intro].
  apply same_kind_bind_eq;
    [apply iter_map_ext; intro x; apply volume_same_manifest; exact Hf | intro].
  unfold extend_iter; cbv beta iota zeta.
  destruct (truthy (dict_get svc "stop_grace_period")); [| exact I].
  apply same_kind_bind2; intro s.
  apply same_kind_bind2; intro secs.
  exact I.
Qed.

(** X13.  The [--swap] switch changes the deployment pair and nothing else.
    For two runs on the same service entry whose arguments agree on the
    service name, the context and the path of the manifest, one with
    [--swap] and one without: either both fail with the same error, or both
    assemble a command, and the two commands are equal but for
    [--swap-deployment NAME] in the one and [--new-deployment tele-NAME] in
    the other. *)
Theorem swap_changes_deployment_only (args args' : arguments) (env : os_env) (spec : pyval) :
  service args = service args' ->
  context args = context args' ->
  composefile args = composefile args' ->
  swap args = true ->
  swap args' = false ->
  same_but_deployment args (main_cmd args env spec) (main_cmd args' env spec).
Proof.
  intros Hs Hc Hf Ht Hn.
  pose proof (main_cmd_same_kind args args' env spec Hf) as K.
  destruct (main_cmd args env spec) as [toks | e | m] eqn:E;
    destruct (main_cmd args' env spec) as [toks' | e' | m'] eqn:E';
    simpl in K; try contradiction; try exact K.
  destruct spec as [| | | | | | svc]; try discriminate.
  destruct (main_cmd_shape args env svc toks E)
    as (tokens & stop & svc_ports & env_file_list & volume_list
        & Htok & Hstop & Hports & Henv & Hvol & ->).
  destruct (main_cmd_shape args' env svc toks' E')
    as (tokens' & stop' & svc_ports' & env_file_list' & volume_list'
        & Htok' & Hstop' & Hports' & Henv' & Hvol' & ->).
  rewrite (entry_tokens_unique _ _ _ Htok' Htok).
  rewrite Hstop in Hstop'; inversion Hstop'; subst stop'.
  rewrite Hports in Hports'; inversion Hports'; subst svc_ports'.
  rewrite (map_result_ext _ _ _ (fun x => env_file_same_manifest args args' env x Hf)) in Henv.
  rewrite Henv in Henv'; inversion Henv'; subst env_file_list'.
  rewrite (map_result_ext _ _ _ (fun x => volume_same_manifest args args' env x Hf)) in Hvol.
  rewrite Hvol in Hvol'; inversion Hvol'; subst volume_list'.
  simpl; eexists; unfold proxy_head, context_head.
  rewrite <- Hs, <- Hc, Ht, Hn; split; reflexivity.
Qed.

Lemma swap_changes_deployment_only_witness :
  main_cmd (mkArgs "web" "staging" true "/proj/docker-compose.yml") sample_env (PDict svc_plain)
  = Ok (map PStr ["telepresence"; "--method"; "container"; "--context"; "staging";
                  "--swap-deployment"; "web"; "--mount"; "false"; "--env-file";
                  "telepresence-env-file.env.tmp"; "--docker-run"; "--rm"; "-it";
                  "--pid"; "host"; "nginx"])
  /\ same_but_deployment (mkArgs "web" "staging" true "/proj/docker-compose.yml")
       (main_cmd (mkArgs "web" "staging" true "/proj/docker-compose.yml") sample_env
                 (PDict svc_plain))
       (main_cmd sample_args sample_env (PDict svc_plain)).
Proof.
  split; [vm_compute; reflexivity |].
  exact (swap_changes_deployment_only
           (mkArgs "web" "staging" true "/proj/docker-compose.yml") sample_args sample_env
           (PDict svc_plain) eq_refl eq_refl eq_refl eq_refl eq_refl).
Defined.

(** [main] looks at a service entry through the values of the fields it
    uses as a whole and through the flag iterators of the others. *)
Lemma main_cmd_view (args : arguments) (env : os_env) (svc svc' : list (pyval * pyval)) :
  (forall k, In k whole_fields -> dict_get svc k = dict_get svc' k) ->
  (forall k flag, In k plain_fields ->
     flag_pairs flag (py_or (dict_get svc k) (PList []))
     = flag_pairs flag (py_or (dict_get svc' k) (PList []))) ->
  main_cmd args env (PDict svc) = main_cmd args env (PDict svc').
Proof.
  intros W P.
  assert (Wb : forall k, existsb (String.eqb k) whole_fields = true ->
                         dict_get svc k = dict_get svc' k).
  { intros k Hk; apply W; apply existsb_exists in Hk; destruct Hk as (x & Hx & E).
    apply String.eqb_eq in E; subst x; exact Hx. }
  assert (Pb : forall k flag, existsb (String.eqb k) plain_fields = true ->
                 flag_pairs flag (py_or (dict_get svc k) (PList []))
                 = flag_pairs flag (py_or (dict_get svc' k) (PList []))).
  { intros k flag Hk; apply P; apply existsb_exists in Hk; destruct Hk as (x & Hx & E).
    apply String.eqb_eq in E; subst x; exact Hx. }
  unfold main_cmd.
  rewrite (Wb "entrypoint" eq_refl), (Wb "image" eq_refl), (Wb "container_name" eq_refl),
    (Wb "pid" eq_refl), (Wb "stop_grace_period" eq_refl), (Wb "stop_signal" eq_refl),
    (Wb "working_dir" eq_refl), (Wb "env_file" eq_refl), (Wb "ports" eq_refl),
    (Wb "volumes" eq_refl).
  rewrite (Pb "cap_add" "--cap-add" eq_refl), (Pb "cap_drop" "--cap-drop" eq_refl),
    (Pb "devices" "--devices" eq_refl), (Pb "dns" "--dns" eq_refl),
    (Pb "dns_search" "--dns-search" eq_refl), (Pb "environment" "-e" eq_refl),
    (Pb "expose" "--expose" eq_refl), (Pb "extra_hosts" "--add-host" eq_refl),
    (Pb "labels" "-l" eq_refl).
  reflexivity.
Qed.

Lemma main_same_entry_outcome (args : arguments) (env : os_env) (doc doc' : pyval)
      (svc svc' : list (pyval * pyval)) :
  service_entry doc (service args) = Some (PDict svc) ->
  service_entry doc' (service args) = Some (PDict svc') ->
  main_cmd args env (PDict svc) = main_cmd args env (PDict svc') ->
  main args env doc = main args env doc'.
Proof.
  intros He He' H.
  destruct (String.eqb (context args) EmptyString) eqn:Ec.
  - apply String.eqb_eq in Ec; rewrite !main_no_context by exact Ec; reflexivity.
  - apply String.eqb_neq in Ec.
    rewrite (main_of_entry args env doc _ Ec He), (main_of_entry args env doc' _ Ec He').
    rewrite H; reflexivity.
Qed.

Lemma whole_fields_used (k : string) : In k whole_fields -> In k used_keys.
Proof.
  unfold whole_fields, used_keys; simpl; intro H.
  repeat (destruct H as [<- | H]; [tauto |]); contradiction.
Qed.

Lemma plain_fields_used (k : string) : In k plain_fields -> In k used_keys.
Proof.
  unfold plain_fields, used_keys; simpl; intro H.
  repeat (destruct H as [<- | H]; [tauto |]); contradiction.
Qed.

(** X14.  Keys that [main] does not read never matter.  Two manifests whose
    entries for the requested service agree on the nineteen fields that
    [main] uses (entrypoint, image, container_name, pid, stop_grace_period,
    stop_signal, working_dir, cap_add, cap_drop, devices, dns, dns_search,
    env_file, environment, expose, extra_hosts, labels, ports, volumes) give
    the same outcome, whatever other keys (build, restart, depends_on,
    networks, ...) the entries hold. *)
Theorem unread_keys_ignored (args : arguments) (env : os_env) (doc doc' : pyval)
        (svc svc' : list (pyval * pyval)) :
  service_entry doc (service args) = Some (PDict svc) ->
  service_entry doc' (service args) = Some (PDict svc') ->
  (forall k, In k used_keys -> dict_get svc k = dict_get svc' k) ->
  main args env doc = main args env doc'.
Proof.
  intros He He' H.
  apply (main_same_entry_outcome args env doc doc' svc svc' He He').
  apply main_cmd_view.
  - intros k Hk; apply H, whole_fields_used, Hk.
  - intros k flag Hk; rewrite (H k (plain_fields_used k Hk)); reflexivity.
Qed.

Lemma unread_keys_ignored_witness :
  main sample_args sample_env (manifest_of svc_with_other_keys)
  = main sample_args sample_env (manifest_of svc_plain)
  /\ main sample_args sample_env (manifest_of svc_plain)
     = Ok ("Docker command:" ++ newline
           ++ "telepresence --method container --context staging --new-deployment tele-web"
           ++ " --mount false --env-file telepresence-env-file.env.tmp --docker-run --rm -it"
           ++ " --pid host nginx").
Proof.
  split; [| vm_compute; reflexivity].
  apply (unread_keys_ignored sample_args sample_env
           (manifest_of svc_with_other_keys) (manifest_of svc_plain)
           svc_with_other_keys svc_plain eq_refl eq_refl).
  intros k Hk; unfold used_keys in Hk; simpl in Hk.
  repeat (destruct Hk as [<- | Hk]; [reflexivity |]); contradiction.
Defined.

Lemma flag_pairs_mapping (flag : string) (e : list (pyval * pyval)) :
  flag_pairs flag (py_or (PDict e) (PList [])) = Ok (pairs flag (map fst e)).
Proof.
  destruct e as [| kv e]; [reflexivity |].
  unfold py_or, truthy, flag_pairs, py_len, py_iter; rewrite !bind_Ok.
  rewrite <- (length_map fst); rewrite chain_combine; reflexivity.
Qed.

(** X15.  Of a field given as a mapping, only the keys reach the command.
    When one of the fields cap_add, cap_drop, devices, dns, dns_search,
    environment, expose, extra_hosts, labels is a mapping in two manifests,
    with the same keys in the same order, and the entries agree on the other
    fields that [main] uses, the outcome is the same: the values of the
    mapping (of [environment: {MODE: prod}], the value [prod]) are dropped. *)
Theorem mapping_field_keys_only (args : arguments) (env : os_env) (doc doc' : pyval)
        (svc svc' : list (pyval * pyval)) (k0 : string) (e e' : list (pyval * pyval)) :
  service_entry doc (service args) = Some (PDict svc) ->
  service_entry doc' (service args) = Some (PDict svc') ->
  In k0 plain_fields ->
  dict_get svc k0 = PDict e ->
  dict_get svc' k0 = PDict e' ->
  map fst e = map fst e' ->
  (forall k, In k used_keys -> k <> k0 -> dict_get svc k = dict_get svc' k) ->
  main args env doc = main args env doc'.
Proof.
  intros He He' Hp Hk0 Hk0' Hkeys H.
  apply (main_same_entry_outcome args env doc doc' svc svc' He He').
  apply main_cmd_view.
  - intros k Hk; apply H; [apply whole_fields_used, Hk |].
    intros ->; revert Hk Hp; unfold whole_fields, plain_fields; simpl; intros Hk Hp.
    repeat (destruct Hp as [<- | Hp];
            [repeat (destruct Hk as [Hk | Hk]; [discriminate Hk |]); contradiction |]).
    contradiction.
  - intros k flag Hk.
    destruct (String.eqb k k0) eqn:E.
    + apply String.eqb_eq in E; subst k.
      rewrite Hk0, Hk0', !flag_pairs_mapping, Hkeys; reflexivity.
    + apply String.eqb_neq in E; rewrite (H k (plain_fields_used k Hk) E); reflexivity.
Qed.

Lemma mapping_field_keys_only_witness :
  main sample_args sample_env (manifest_of (svc_with_environment "prod"))
  = main sample_args sample_env (manifest_of (svc_with_environment "test"))
  /\ main sample_args sample_env (manifest_of (svc_with_environment "prod"))
     = Ok ("Docker command:" ++ newline
           ++ "telepresence --method container --context staging --new-deployment tele-web"
           ++ " --mount false --env-file telepresence-env-file.env.tmp --docker-run --rm -it"
           ++ " -e MODE -e DEBUG nginx").
Proof.
  split; [| vm_compute; reflexivity].
  apply (mapping_field_keys_only sample_args sample_env
           (manifest_of (svc_with_environment "prod"))
           (manifest_of (svc_with_environment "test"))
           (svc_with_environment "prod") (svc_with_environment "test") "environment"
           [(PStr "MODE", PStr "prod"); (PStr "DEBUG", PInt 1)]
           [(PStr "MODE", PStr "test"); (PStr "DEBUG", PInt 1)]
           eq_refl eq_refl).
  - unfold plain_fields; simpl; tauto.
  - reflexivity.
  - reflexivity.
  - reflexivity.
  - intros k Hk Hn; unfold used_keys in Hk; simpl in Hk.
    repeat (destruct Hk as [<- | Hk];
            [first [reflexivity | exfalso; apply Hn; reflexivity] |]); contradiction.
Defined.
